(** * QuadriCAD: the sizing and selection engine of [quadri_cad.py]

    A shallow embedding of the engineering functions of the switchboard
    sizing tool and of the pieces of [main] that take decisions (load
    insertion, transformer lookup, enclosure choice).

    Numbers.  Python [float] values are modelled by exact rationals [Q]:
    every arithmetic operator is the exact one, comparisons are the
    order of [Q], and the only arithmetic failure is the
    [ZeroDivisionError] that [/] raises on a zero divisor.  Rounding,
    infinities and NaN are outside the model.  Equality of computed
    numbers is [Qeq] ([==]).

    The fault-current formula, whose expected value is a quoted numeral, is
    also given on IEEE binary64 numbers (module [Binary64]) and evaluated
    there.

    Failures.  A Python exception is [Raise] applied to the name of its
    class; a function that can raise returns a [result]. *)

From Stdlib Require Import QArith Qabs Qminmax Lqa ZArith Lia.
From Stdlib Require Import List String Ascii Bool Floats.
Import ListNotations.

Set Warnings "-inexact-float".

Open Scope string_scope.
Open Scope Q_scope.

(** ** Python runtime *)

Module Py.

(** The name of an exception class. *)
Definition exn := string.

Inductive result (A : Type) : Type :=
| Return (a : A)
| Raise (e : exn).

Arguments Return {A} a.
Arguments Raise {A} e.

Definition bind {A B : Type} (m : result A) (k : A -> result B) : result B :=
  match m with
  | Return a => k a
  | Raise e => Raise e
  end.

Definition ZeroDivisionError : exn := "ZeroDivisionError".
Definition ValueError : exn := "ValueError".
Definition KeyError : exn := "KeyError".

(** [a < b] on numbers. *)
Definition Qltb (a b : Q) : bool := negb (Qle_bool b a).

(** [a / b]: true division raises on a zero divisor. *)
Definition truediv (a b : Q) : result Q :=
  if Qeq_bool b 0 then Raise ZeroDivisionError else Return (a / b).

(** [sum(xs)]: starts from [0] and adds the items from left to right. *)
Definition sum (xs : list Q) : Q := fold_left Qplus xs 0.

(** [min(a, b)]: keeps [a] unless [b] is strictly smaller. *)
Definition min2 (a b : Q) : Q := if Qltb b a then b else a.

(** [min(xs)] on a list of integers: [ValueError] on the empty list,
    otherwise a scan that keeps the first smallest item. *)
Definition min_list (xs : list Z) : result Z :=
  match xs with
  | [] => Raise ValueError
  | x :: rest => Return (fold_left (fun m t => if (t <? m)%Z then t else m) rest x)
  end.

(** [any(xs)] *)
Definition any (xs : list bool) : bool := existsb (fun b => b) xs.

(** [d.get(k, default)] on a dict written as its item list. *)
Fixpoint dict_get {V : Type} (d : list (string * V)) (k : string) (default : V) : V :=
  match d with
  | [] => default
  | (k', v) :: d' => if String.eqb k' k then v else dict_get d' k default
  end.

(** [str.lower] on ASCII text. *)
Definition lower_ascii (a : ascii) : ascii :=
  let n := nat_of_ascii a in
  if ((65 <=? n) && (n <=? 90))%nat then ascii_of_nat (n + 32) else a.

Fixpoint lower (s : string) : string :=
  match s with
  | EmptyString => EmptyString
  | String a s' => String (lower_ascii a) (lower s')
  end.

(** [str.strip] on ASCII text: the white space characters are the codes
    9 to 13, 28 to 31 and 32. *)
Definition isspace (a : ascii) : bool :=
  let n := nat_of_ascii a in
  (((9 <=? n) && (n <=? 13)) || ((28 <=? n) && (n <=? 31)) || (n =? 32))%nat.

Fixpoint lstrip (s : string) : string :=
  match s with
  | EmptyString => EmptyString
  | String a s' => if isspace a then lstrip s' else s
  end.

Definition reverse (s : string) : string :=
  string_of_list_ascii (rev (list_ascii_of_string s)).

Definition strip (s : string) : string :=
  reverse (lstrip (reverse (lstrip s))).

End Py.

Import Py.

Notation "x <- m ;; k" := (bind m (fun x => k))
  (at level 61, m at next level, right associativity).

(** ** Data structures *)

(** [class Carico] *)
Record Carico : Type := mkCarico {
  nome : string;
  potenza_kw : Q;
  cos_phi : Q;
  regime : string;
  priorita : string;
  ore_giorno : Q
}.

(** A row of the breaker table: the columns of [load_interruttori_db]. *)
Record Riga : Type := mkRiga {
  serie : string;
  modello : string;
  in_nom : Z;
  icu : Z;
  prezzo : Q
}.

(** ** pandas *)

Module Pd.

(** A data frame is the list of its rows, each under its index label. *)
Definition DataFrame := list (nat * Riga).

(** [pd.DataFrame(records)]: the rows get the labels [0, 1, 2, ...]. *)
Definition from_records (records : list Riga) : DataFrame :=
  combine (seq 0 (List.length records)) records.

(** [df[mask]]: the rows where the mask holds, labels kept. *)
Definition select (mask : Riga -> bool) (df : DataFrame) : DataFrame :=
  filter (fun ir => mask (snd ir)) df.

(** [df.empty] *)
Definition empty (df : DataFrame) : bool :=
  match df with
  | [] => true
  | _ :: _ => false
  end.

(** The scan of [idxmin]: the label moves only to a strictly smaller value,
    so the first row holding the minimum wins. *)
Fixpoint idxmin_scan (col : Riga -> Q) (best : nat * Riga) (rest : DataFrame) : nat :=
  match rest with
  | [] => fst best
  | ir :: rest' =>
      if Qltb (col (snd ir)) (col (snd best))
      then idxmin_scan col ir rest'
      else idxmin_scan col best rest'
  end.

(** [df[col].idxmin()] *)
Definition idxmin (col : Riga -> Q) (df : DataFrame) : result nat :=
  match df with
  | [] => Raise ValueError
  | ir :: rest => Return (idxmin_scan col ir rest)
  end.

(** [df.loc[label]], labels being unique. *)
Definition loc (df : DataFrame) (label : nat) : result Riga :=
  match find (fun ir => Nat.eqb (fst ir) label) df with
  | Some ir => Return (snd ir)
  | None => Raise KeyError
  end.

End Pd.

(** ** Component database *)

(** The records listed in [load_interruttori_db]. *)
Definition interruttori_records : list Riga := [
    mkRiga "T1" "T1S160" 63 15 450;
    mkRiga "T1" "T1S160" 80 15 520;
    mkRiga "T2" "T2S160" 100 25 680;
    mkRiga "T2" "T2S160" 125 25 750;
    mkRiga "T3" "T3S250" 160 35 950;
    mkRiga "T3" "T3S250" 200 35 1100;
    mkRiga "T4" "T4S250" 250 50 1450;
    mkRiga "T5" "T5H400" 320 65 2200;
    mkRiga "T5" "T5H400" 400 65 2800;
    mkRiga "E1" "E1N800" 630 42 4500;
    mkRiga "E1" "E1N800" 800 42 5200;
    mkRiga "E2" "E2N1250" 1000 65 7800;
    mkRiga "E3" "E3N1600" 1250 65 12000;
    mkRiga "E3" "E3N3200" 1600 65 15000
  ].

Definition load_interruttori_db : Pd.DataFrame :=
  Pd.from_records interruttori_records.

(** ** Engineering calculations *)

(** [calcola_potenza_dimensionamento]: installed power, simultaneity factor
    and design power. *)
Definition calcola_potenza_dimensionamento (carichi : list Carico)
  : result (Q * Q * Q) :=
  let pot_installata := Py.sum (map potenza_kw carichi) in
  let carichi_continui :=
    filter (fun c => String.eqb (regime c) "continuo") carichi in
  let carichi_intermittenti :=
    filter (fun c => String.eqb (regime c) "intermittente") carichi in
  let pot_continua := Py.sum (map potenza_kw carichi_continui) in
  let pot_intermittente :=
    Py.sum (map (fun c => potenza_kw c * (ore_giorno c / 24)) carichi_intermittenti) in
  rapporto <- truediv (pot_continua + pot_intermittente * 0.7) pot_installata ;;
  let fattore_contemporaneita := min2 0.9 rapporto in
  let pot_dimensionamento := pot_installata * fattore_contemporaneita * 1.15 in
  Return (pot_installata, fattore_contemporaneita, pot_dimensionamento).

(** [calcola_corrente_cortocircuito] *)
Definition calcola_corrente_cortocircuito (potenza_trasf_kva : Q) (tensione : Z)
  : result Q :=
  let sn_mva := potenza_trasf_kva / 1000 in
  truediv (sn_mva * 1000) (1.732 * inject_Z tensione * 0.06).

(** The value [seleziona_interruttore] returns: the chosen row as a dict, or
    the dict with the single key ["errore"]. *)
Inductive Dict : Type :=
| to_dict (r : Riga)
| errore (msg : string).

(** [seleziona_interruttore] *)
Definition seleziona_interruttore (corrente_richiesta icc : Q) (db : Pd.DataFrame)
  : result Dict :=
  let candidati :=
    Pd.select (fun r => Qle_bool (corrente_richiesta * 1.25) (inject_Z (in_nom r))
                        && Qle_bool icc (inject_Z (icu r))) db in
  if Pd.empty candidati
  then Return (errore "Nessun interruttore adeguato trovato")
  else
    label <- Pd.idxmin prezzo candidati ;;
    ottimale <- Pd.loc candidati label ;;
    Return (to_dict ottimale).

(** The dict [verifica_termica_semplificata] returns. *)
Record VerificaTermica : Type := mkVerifica {
  pot_dissipata : Q;
  pot_dissipabile : Q;
  margine_pct : Q;
  esito : string
}.

Definition coeff_dissip : list (string * Q) :=
  [("IP31", 1.0); ("IP43", 0.9); ("IP65", 0.75)].

(** [verifica_termica_semplificata] *)
Definition verifica_termica_semplificata (pot_diss volume_m3 : Q) (ip_grade : string)
  : result VerificaTermica :=
  let k_dissip := dict_get coeff_dissip ip_grade 0.8 in
  let pot_dissipabile_max := volume_m3 * 400 * k_dissip in
  quoziente <- truediv (pot_dissipabile_max - pot_diss) pot_dissipabile_max ;;
  let margine := quoziente * 100 in
  Return {| pot_dissipata := pot_diss;
            pot_dissipabile := pot_dissipabile_max;
            margine_pct := margine;
            esito := if Qltb 20 margine then "OK"
                     else if Qltb 0 margine then "CRITICO"
                     else "NON OK" |}.

(** ** Decisions taken in [main] *)

(** What the user sees after pressing the add button: one of the three
    [st.error] messages, or the [st.success] message. *)
Inductive Messaggio : Type :=
| errore_denominazione            (* "Inserire denominazione carico" *)
| errore_potenza                  (* "Potenza deve essere maggiore di 0" *)
| errore_esistente (n : string)   (* "Carico '<n>' gia' esistente" *)
| successo_aggiunto (n : string). (* "Carico '<n>' aggiunto!" *)

(** The handler of the add button: validation, then the append to
    [st.session_state.carichi].  The list is passed in and out. *)
Definition aggiungi_carico (carichi : list Carico)
    (nome_ : string) (potenza cos_phi_ : Q) (regime_ priorita_ : string) (ore_giorno_ : Q)
  : list Carico * Messaggio :=
  if String.eqb nome_ "" || String.eqb (strip nome_) ""
  then (carichi, errore_denominazione)
  else if Qle_bool potenza 0
  then (carichi, errore_potenza)
  else if any (map (fun c => String.eqb (lower (nome c)) (lower nome_)) carichi)
  then (carichi, errore_esistente nome_)
  else ((carichi ++ [mkCarico (strip nome_) potenza cos_phi_ regime_ priorita_ ore_giorno_])%list,
        successo_aggiunto nome_).

(** The two quick templates of the load tab. *)
Definition template_officina : list Carico := [
  mkCarico "Centro CNC 1" 45 0.85 "continuo" "normale" 16;
  mkCarico "Centro CNC 2" 35 0.85 "continuo" "normale" 16;
  mkCarico "Tornio" 15 0.8 "intermittente" "normale" 8;
  mkCarico "Compressore" 22 0.85 "continuo" "critico" 24;
  mkCarico "Illuminazione" 15 0.9 "continuo" "normale" 12
].

Definition template_caseificio : list Carico := [
  mkCarico "Pastorizzatore" 120 0.9 "continuo" "critico" 24;
  mkCarico "Gruppo Frigo" 85 0.85 "continuo" "critico" 24;
  mkCarico "Centrifuga" 75 0.8 "intermittente" "normale" 6;
  mkCarico "Confezionamento" 35 0.85 "continuo" "normale" 16
].

(** The head of the calculation tab: [if not st.session_state.carichi] shows
    a warning and computes nothing, otherwise the sizing is computed. *)
Inductive TabCalcoli : Type :=
| avviso_definire_carichi
| potenze (pot_inst fatt_cont pot_dim : Q).

Definition tab_calcoli (carichi : list Carico) : result TabCalcoli :=
  match carichi with
  | [] => Return avviso_definire_carichi
  | _ :: _ =>
      r <- calcola_potenza_dimensionamento carichi ;;
      let '(pot_inst, fatt_cont, pot_dim) := r in
      Return (potenze pot_inst fatt_cont pot_dim)
  end.

Definition trasf_std : list Z :=
  [160; 250; 315; 400; 500; 630; 800; 1000; 1250; 1600; 2000; 2500]%Z.

(** [trasf_scelto = min([t for t in trasf_std if t >= pot_dim])] *)
Definition trasf_scelto (pot_dim : Q) : result Z :=
  min_list (filter (fun t => Qle_bool pot_dim (inject_Z t)) trasf_std).

(** [in_generale = pot_dim * 1000 / (400 * 1.732 * 0.85)]; the divisor is a
    non-zero constant. *)
Definition in_generale (pot_dim : Q) : Q :=
  pot_dim * 1000 / (400 * 1.732 * 0.85).

(** The enclosure choice: [(carpenteria, costo_carp)]. *)
Definition carpenteria (carichi : list Carico) (in_gen : Q) : string * Z :=
  let numero_partenze := (Z.of_nat (List.length carichi) + 1)%Z in
  if (numero_partenze <=? 6)%Z && Qle_bool in_gen 400
  then ("ArTu M - 1 colonna", 8000%Z)
  else if (numero_partenze <=? 12)%Z && Qle_bool in_gen 800
  then ("ArTu K - 1 colonna", 12000%Z)
  else ("ArTu K - 2 colonne", 18000%Z).

(** ** The fault-current formula on binary64 numbers *)

Module Binary64.

Definition truediv (a b : float) : result float :=
  if PrimFloat.eqb b 0 then Raise ZeroDivisionError else Return (a / b)%float.

(** [calcola_corrente_cortocircuito] with every operation rounded as the
    interpreter rounds it; the integer arguments are converted on entry. *)
Definition calcola_corrente_cortocircuito (potenza_trasf_kva tensione : float)
  : result float :=
  let sn_mva := (potenza_trasf_kva / 1000)%float in
  truediv (sn_mva * 1000)%float (1.732 * tensione * 0.06)%float.

End Binary64.

(** ** The quantities of the specification

    Written as recursions on the list of loads, to be compared with what
    the code computes by [filter], generator and [sum]. *)

Definition continuo (c : Carico) : bool := String.eqb (regime c) "continuo".
Definition intermittente (c : Carico) : bool := String.eqb (regime c) "intermittente".

(** The sum of [f c] over the loads [c] of the list that satisfy [p]. *)
Fixpoint somma_su (p : Carico -> bool) (f : Carico -> Q) (l : list Carico) : Q :=
  match l with
  | [] => 0
  | c :: l' => (if p c then f c else 0) + somma_su p f l'
  end.

Definition installed_power (l : list Carico) : Q :=
  somma_su (fun _ => true) potenza_kw l.

Definition continuous_power (l : list Carico) : Q :=
  somma_su continuo potenza_kw l.

Definition intermittent_equivalent (l : list Carico) : Q :=
  somma_su intermittente (fun c => potenza_kw c * (ore_giorno c / 24)) l.

Definition simultaneity_factor (l : list Carico) : Q :=
  Qmin 0.9 ((continuous_power l + 0.7 * intermittent_equivalent l) / installed_power l).

(** The dissipation coefficient of a protection grade. *)
Definition coefficient (ip_grade : string) : Q :=
  if String.eqb ip_grade "IP31" then 1
  else if String.eqb ip_grade "IP43" then 0.9
  else if String.eqb ip_grade "IP65" then 0.75
  else 0.8.

(** A row conforms when it carries the required current with the 25% margin
    and interrupts the fault current. *)
Definition conforme (corrente_richiesta icc : Q) (r : Riga) : Prop :=
  corrente_richiesta * 1.25 <= inject_Z (in_nom r) /\ icc <= inject_Z (icu r).

(** Two names are the same up to letter case. *)
Definition stesso_nome (a b : string) : Prop := lower a = lower b.

(** The add button rejected the load: the message is one of the errors. *)
Definition rifiutato (m : Messaggio) : Prop :=
  match m with
  | successo_aggiunto _ => False
  | _ => True
  end.

(** Agreement to the three decimals of a quoted value. *)
Definition approx3 (x y : Q) : Prop := Qabs (x - y) <= 0.0005.

(** ** The rest of [main]: load list, component tab, report tab *)

Definition IndexError : exn := "IndexError".

(** [lst.pop(i)] for an index [i >= 0]: the removed item and the list left;
    [IndexError] past the end. *)
Fixpoint pop {A : Type} (l : list A) (i : nat) : result (A * list A) :=
  match l, i with
  | [], _ => Raise IndexError
  | x :: l', O => Return (x, l')
  | x :: l', S j => r <- pop l' j ;; Return (fst r, x :: snd r)
  end.

(** [d[k]] on a dict written as its item list: [KeyError] on a missing key. *)
Fixpoint dict_getitem {V : Type} (d : list (string * V)) (k : string) : result V :=
  match d with
  | [] => Raise KeyError
  | (k', v) :: d' => if String.eqb k' k then Return v else dict_getitem d' k
  end.

(** [lst.index(x)]: the first position of [x], [ValueError] when absent. *)
Fixpoint list_index (l : list string) (x : string) : result nat :=
  match l with
  | [] => Raise ValueError
  | y :: l' => if String.eqb y x then Return O
               else i <- list_index l' x ;; Return (S i)
  end.

(** The sidebar: the environments, the grade each one preselects and the
    grades offered. *)
Definition ambienti : list string :=
  ["Interno normale"; "Interno umido"; "Esterno"; "Chimico aggressivo"].

Definition ip_auto : list (string * string) :=
  [("Interno normale", "IP31"); ("Interno umido", "IP43");
   ("Esterno", "IP65"); ("Chimico aggressivo", "IP66")].

Definition gradi_ip : list string := ["IP31"; "IP43"; "IP65"; "IP66"].

(** [["IP31", "IP43", "IP65", "IP66"].index(ip_auto[ambiente])] *)
Definition indice_ip_auto (ambiente : string) : result nat :=
  grado <- dict_getitem ip_auto ambiente ;;
  list_index gradi_ip grado.

(** The buttons that change [st.session_state.carichi]. *)
Inductive Azione : Type :=
| Aggiungi (nome_ : string) (potenza cos_phi_ : Q) (regime_ priorita_ : string)
           (ore_giorno_ : Q)
| OfficinaMeccanica
| Caseificio
| Cancella (i : nat)
| CancellaTutti.

(** What each button does to the list: the add handler, [extend] with a
    template, [pop(i)], and the reset to the empty list. *)
Definition esegui (carichi : list Carico) (a : Azione) : result (list Carico) :=
  match a with
  | Aggiungi nome_ potenza cos_phi_ regime_ priorita_ ore_giorno_ =>
      Return (fst (aggiungi_carico carichi nome_ potenza cos_phi_ regime_ priorita_
                                   ore_giorno_))
  | OfficinaMeccanica => Return (carichi ++ template_officina)%list
  | Caseificio => Return (carichi ++ template_caseificio)%list
  | Cancella i => r <- pop carichi i ;; Return (snd r)
  | CancellaTutti => Return []
  end.



(** The fields of a load as the widgets and the templates produce them. *)
Definition carico_valido (c : Carico) : Prop :=
  nome c <> ""
  /\ 0.5 <= potenza_kw c /\ potenza_kw c <= 1000
  /\ 0.6 <= cos_phi c /\ cos_phi c <= 1
  /\ (regime c = "continuo" \/ regime c = "intermittente")
  /\ 1 <= ore_giorno c /\ ore_giorno c <= 24.

(** [carico.potenza_kw * 1000 / (400 * 1.732 * carico.cos_phi)] *)
Definition corrente_carico (c : Carico) : result Q :=
  truediv (potenza_kw c * 1000) (400 * 1.732 * cos_phi c).


(** The loop over the loads of the component tab.  A row of [partenze] is
    kept as the load and the breaker row it is displayed from; a load whose
    selection gave the error dict adds no row and no cost. *)
Fixpoint ciclo_partenze (icc : Q) (db : Pd.DataFrame) (carichi : list Carico)
    (partenze : list (Carico * Riga)) (costo_totale : Q)
  : result (list (Carico * Riga) * Q) :=
  match carichi with
  | [] => Return (partenze, costo_totale)
  | carico :: resto =>
      corrente <- corrente_carico carico ;;
      int_partenza <- seleziona_interruttore corrente icc db ;;
      match int_partenza with
      | to_dict r =>
          ciclo_partenze icc db resto (partenze ++ [(carico, r)])%list
                         (costo_totale + prezzo r)
      | errore _ => ciclo_partenze icc db resto partenze costo_totale
      end
  end.

(** The two budget tests, [costo_totale <= budget_interruttori] and
    [costo_totale <= budget_totale * 0.6]. *)
Definition verifica_budget (costo_totale : Q) (budget_k : Z) : bool * bool :=
  let budget_totale := inject_Z (budget_k * 1000) in
  let budget_interruttori := inject_Z (budget_k * 1000) * 0.4 in
  (Qle_bool costo_totale budget_interruttori,
   Qle_bool costo_totale (budget_totale * 0.6)).



(** The thermal check of the report tab: the fixed volume [2.0 * 1.0 * 0.4]
    and the estimate [len(carichi) * 15 + 80] of the dissipated power. *)
Definition verifica_termica_report (carichi : list Carico) (ip_grade : string)
  : result VerificaTermica :=
  let volume_quadro := 2.0 * 1.0 * 0.4 in
  let pot_dissipata_tot := inject_Z (Z.of_nat (List.length carichi) * 15 + 80) in
  verifica_termica_semplificata pot_dissipata_tot volume_quadro ip_grade.

(** ** Auxiliary notions for the statements *)



(** The verdicts in order of merit. *)
Definition grado_esito (e : string) : Z :=
  if String.eqb e "OK" then 2%Z
  else if String.eqb e "CRITICO" then 1%Z
  else 0%Z.

(** ** Arithmetic of the runtime *)

Lemma Qltb_true (a b : Q) : Qltb a b = true <-> a < b.
Proof.
  unfold Qltb. rewrite negb_true_iff.
  split; intro H.
  - apply Qnot_le_lt. intro Hle. apply Qle_bool_iff in Hle. congruence.
  - destruct (Qle_bool b a) eqn:E; [|reflexivity].
    apply Qle_bool_iff in E. lra.
Qed.

Lemma Qltb_false (a b : Q) : Qltb a b = false <-> b <= a.
Proof.
  unfold Qltb. rewrite negb_false_iff. apply Qle_bool_iff.
Qed.

Lemma truediv_ok (a b : Q) : ~ b == 0 -> truediv a b = Return (a / b).
Proof.
  intro H. unfold truediv.
  destruct (Qeq_bool b 0) eqn:E; [|reflexivity].
  apply Qeq_bool_iff in E. contradiction.
Qed.

Lemma truediv_zero (a b : Q) : b == 0 -> truediv a b = Raise ZeroDivisionError.
Proof.
  intro H. unfold truediv. apply Qeq_bool_iff in H. now rewrite H.
Qed.

Lemma min2_Qmin (a b : Q) : min2 a b == Qmin a b.
Proof.
  unfold min2.
  destruct (Q.min_spec a b) as [[Hlt Hm]|[Hle Hm]]; rewrite Hm;
    destruct (Qltb b a) eqn:E.
  - apply Qltb_true in E. lra.
  - reflexivity.
  - reflexivity.
  - apply Qltb_false in E. lra.
Qed.

Lemma fold_left_Qplus (xs : list Q) (a : Q) :
  fold_left Qplus xs a == a + fold_left Qplus xs 0.
Proof.
  revert a. induction xs as [|x xs IH]; intro a; simpl.
  - lra.
  - rewrite (IH (a + x)), (IH (0 + x)). lra.
Qed.

Lemma sum_cons (x : Q) (xs : list Q) : Py.sum (x :: xs) == x + Py.sum xs.
Proof.
  unfold Py.sum. simpl. rewrite fold_left_Qplus. lra.
Qed.

(** The generator over a filtered list adds up to the guarded sum. *)
Lemma sum_filter (p : Carico -> bool) (f : Carico -> Q) (l : list Carico) :
  Py.sum (map f (filter p l)) == somma_su p f l.
Proof.
  induction l as [|c l IH]; simpl.
  - reflexivity.
  - destruct (p c); simpl.
    + rewrite sum_cons, IH. reflexivity.
    + rewrite IH. lra.
Qed.

Lemma sum_all (f : Carico -> Q) (l : list Carico) :
  Py.sum (map f l) == somma_su (fun _ => true) f l.
Proof.
  induction l as [|c l IH]; simpl.
  - reflexivity.
  - rewrite sum_cons, IH. reflexivity.
Qed.

Lemma somma_su_nonneg (p : Carico -> bool) (f : Carico -> Q) (l : list Carico) :
  Forall (fun c => 0 <= f c) l -> 0 <= somma_su p f l.
Proof.
  induction 1 as [|c l Hc _ IH]; simpl.
  - lra.
  - destruct (p c); lra.
Qed.

Lemma installed_power_pos (l : list Carico) :
  l <> [] -> Forall (fun c => 0 < potenza_kw c) l -> 0 < installed_power l.
Proof.
  intros Hne Hall. unfold installed_power.
  destruct Hall as [|c l Hc Hl]; [congruence|].
  simpl.
  assert (0 <= somma_su (fun _ => true) potenza_kw l).
  { apply somma_su_nonneg. eapply Forall_impl; [|exact Hl]. simpl. intros; lra. }
  lra.
Qed.

(** What the function returns once the installed power is not zero. *)
Lemma calcola_potenza_dimensionamento_ok (carichi : list Carico) :
  ~ installed_power carichi == 0 ->
  exists inst fatt dim,
    calcola_potenza_dimensionamento carichi = Return (inst, fatt, dim)
    /\ inst == installed_power carichi
    /\ fatt == simultaneity_factor carichi
    /\ dim = inst * fatt * 1.15.
Proof.
  intro Hnz. unfold calcola_potenza_dimensionamento.
  fold continuo. fold intermittente.
  assert (Hs : Py.sum (map potenza_kw carichi) == installed_power carichi)
    by apply sum_all.
  rewrite truediv_ok by (rewrite Hs; exact Hnz).
  simpl. do 3 eexists. split; [reflexivity|].
  split; [exact Hs|]. split; [|reflexivity].
  rewrite min2_Qmin. unfold simultaneity_factor, continuous_power, intermittent_equivalent.
  rewrite !sum_filter, Hs.
  setoid_replace (somma_su intermittente (fun c => potenza_kw c * (ore_giorno c / 24)) carichi * 0.7)
    with (0.7 * somma_su intermittente (fun c => potenza_kw c * (ore_giorno c / 24)) carichi)
    by ring.
  reflexivity.
Qed.

(** ** Sizing engine *)

(** C1. For a non-empty list of loads, each of positive power, the function
    returns the installed power (the sum of the powers), the simultaneity
    factor min(0.9, (continuous power + 0.7 x intermittent equivalent) /
    installed power), and the design power, which is the product of the two
    returned values and 1.15, exactly. *)
Theorem compute_sizing_formulas (carichi : list Carico) :
  carichi <> [] ->
  Forall (fun c => 0 < potenza_kw c) carichi ->
  exists inst fatt dim,
    calcola_potenza_dimensionamento carichi = Return (inst, fatt, dim)
    /\ inst == installed_power carichi
    /\ fatt == simultaneity_factor carichi
    /\ dim = inst * fatt * 1.15.
Proof.
  intros Hne Hpos.
  apply calcola_potenza_dimensionamento_ok.
  pose proof (installed_power_pos carichi Hne Hpos). lra.
Qed.

Lemma compute_sizing_formulas_witness :
  exists inst fatt dim,
    calcola_potenza_dimensionamento template_officina = Return (inst, fatt, dim)
    /\ inst == installed_power template_officina
    /\ fatt == simultaneity_factor template_officina
    /\ dim = inst * fatt * 1.15.
Proof.
  apply (compute_sizing_formulas template_officina).
  - discriminate.
  - repeat (constructor; [reflexivity|]). constructor.
Defined.

(** The empty list makes the function raise, and the exception is not an
    [EmptyLoadSet] one. *)
Lemma compute_sizing_empty_raises_other :
  calcola_potenza_dimensionamento [] = Raise ZeroDivisionError
  /\ calcola_potenza_dimensionamento [] <> Raise "EmptyLoadSet".
Proof.
  split; [reflexivity|]. vm_compute. discriminate.
Qed.

(** C5, amended. With no load, or with loads whose installed power is zero,
    the function returns nothing and defaults nothing: the division by the
    installed power raises [ZeroDivisionError].  The calculation tab tests
    the list before the call and shows a warning on the empty one. *)
Theorem compute_sizing_zero_division :
  calcola_potenza_dimensionamento [] = Raise ZeroDivisionError
  /\ (forall carichi, installed_power carichi == 0 ->
        calcola_potenza_dimensionamento carichi = Raise ZeroDivisionError)
  /\ tab_calcoli [] = Return avviso_definire_carichi.
Proof.
  split; [reflexivity|]. split; [|reflexivity].
  intros carichi Hz. unfold calcola_potenza_dimensionamento.
  rewrite truediv_zero; [reflexivity|].
  rewrite sum_all. exact Hz.
Qed.

Lemma compute_sizing_zero_division_witness :
  calcola_potenza_dimensionamento [mkCarico "Riserva" 0 0.85 "continuo" "normale" 24]
  = Raise ZeroDivisionError.
Proof.
  apply (proj1 (proj2 compute_sizing_zero_division)).
  reflexivity.
Defined.

Lemma numerator_pos (l : list Carico) :
  l <> [] ->
  Forall (fun c => 0 < potenza_kw c /\ 0 < ore_giorno c <= 24
                   /\ (regime c = "continuo" \/ regime c = "intermittente")) l ->
  0 < continuous_power l + 0.7 * intermittent_equivalent l.
Proof.
  intros Hne Hall. unfold continuous_power, intermittent_equivalent.
  destruct Hall as [|c l Hc Hl]; [congruence|].
  assert (Hc0 : 0 <= somma_su continuo potenza_kw l).
  { apply somma_su_nonneg. eapply Forall_impl; [|exact Hl].
    simpl. intros a (Ha & _). lra. }
  assert (Hi0 : 0 <= somma_su intermittente
                       (fun c => potenza_kw c * (ore_giorno c / 24)) l).
  { apply somma_su_nonneg. eapply Forall_impl; [|exact Hl].
    simpl. intros a (Ha & (Hb & _) & _).
    apply Qmult_le_0_compat; [lra|].
    apply Qle_shift_div_l; lra. }
  destruct Hc as (Hp & (Ho & _) & Hr).
  assert (Hq : 0 < potenza_kw c * (ore_giorno c / 24)).
  { apply Qmult_lt_0_compat; [lra|]. apply Qlt_shift_div_l; lra. }
  simpl. unfold continuo at 1, intermittente at 1.
  destruct Hr as [Hr|Hr]; rewrite Hr; simpl; lra.
Qed.

Lemma all_continuous_sums (l : list Carico) :
  Forall (fun c => regime c = "continuo") l ->
  continuous_power l == installed_power l /\ intermittent_equivalent l == 0.
Proof.
  unfold continuous_power, installed_power, intermittent_equivalent.
  induction 1 as [|c l Hc _ [IH1 IH2]]; simpl.
  - split; reflexivity.
  - unfold continuo at 1, intermittente at 1. rewrite Hc. simpl.
    rewrite IH1, IH2. split; lra.
Qed.

(** C8. For a non-empty list of loads with positive powers, hours in (0, 24]
    and regime continuous or intermittent, the returned simultaneity factor
    lies in (0, 0.9]; it is 0.9 when every load is continuous. *)
Theorem simultaneity_factor_bounds (carichi : list Carico) :
  carichi <> [] ->
  Forall (fun c => 0 < potenza_kw c /\ 0 < ore_giorno c <= 24
                   /\ (regime c = "continuo" \/ regime c = "intermittente")) carichi ->
  exists inst fatt dim,
    calcola_potenza_dimensionamento carichi = Return (inst, fatt, dim)
    /\ 0 < fatt /\ fatt <= 0.9
    /\ (Forall (fun c => regime c = "continuo") carichi -> fatt == 0.9).
Proof.
  intros Hne Hall.
  assert (Hpos : 0 < installed_power carichi).
  { apply installed_power_pos; [exact Hne|].
    eapply Forall_impl; [|exact Hall]. simpl. tauto. }
  destruct (calcola_potenza_dimensionamento_ok carichi) as (inst & fatt & dim & E & _ & Hf & _);
    [lra|].
  exists inst, fatt, dim. split; [exact E|].
  pose proof (numerator_pos carichi Hne Hall) as Hnum.
  set (num := continuous_power carichi + 0.7 * intermittent_equivalent carichi) in *.
  assert (Hr : 0 < num / installed_power carichi)
    by (apply Qlt_shift_div_l; lra).
  unfold simultaneity_factor in Hf. fold num in Hf.
  destruct (Q.min_spec 0.9 (num / installed_power carichi)) as [[Hlt Hm]|[Hle Hm]];
    rewrite Hm in Hf.
  - split; [lra|]. split; [lra|]. intros _. exact Hf.
  - split; [lra|]. split; [lra|]. intros Hcont.
    destruct (all_continuous_sums carichi Hcont) as [Hc Hi].
    assert (Hone : num / installed_power carichi == 1).
    { unfold num. rewrite Hc, Hi. field. lra. }
    lra.
Qed.

Lemma simultaneity_factor_bounds_witness :
  exists inst fatt dim,
    calcola_potenza_dimensionamento template_caseificio = Return (inst, fatt, dim)
    /\ 0 < fatt /\ fatt <= 0.9
    /\ (Forall (fun c => regime c = "continuo") template_caseificio -> fatt == 0.9).
Proof.
  apply (simultaneity_factor_bounds template_caseificio).
  - discriminate.
  - repeat (constructor;
            [simpl; repeat split; try reflexivity; try discriminate;
             (left; reflexivity) || (right; reflexivity)|]).
    constructor.
Defined.

(** ** Fault-current estimator *)

(** At 1000 kVA and 400 V the function does not return a value that agrees
    with 2.406: the value it returns is more than 21 away. *)
Lemma short_circuit_1000_400_not_2406 :
  ~ (exists icc, calcola_corrente_cortocircuito 1000 400 = Return icc
                 /\ approx3 icc 2.406).
Proof.
  intros (icc & E & H).
  vm_compute in E. injection E as <-.
  unfold approx3 in H. vm_compute in H. apply H. reflexivity.
Qed.

(** C4, amended. At 1000 kVA and 400 V the function returns the value of
    (1 x 1000) / (1.732 x 400 x 0.06), which is 24.057 to three decimals. *)
Theorem short_circuit_1000_400 :
  exists icc, calcola_corrente_cortocircuito 1000 400 = Return icc
              /\ icc == (1 * 1000) / (1.732 * 400 * 0.06)
              /\ approx3 icc 24.057.
Proof.
  eexists. split; [reflexivity|]. split.
  - reflexivity.
  - unfold approx3. vm_compute. discriminate.
Qed.

(** The same call on binary64 numbers: the double the interpreter prints as
    24.05696689761355. *)
Example short_circuit_1000_400_binary64 :
  Binary64.calcola_corrente_cortocircuito 1000 400 = Return 24.056966897613549%float
  /\ PrimFloat.ltb 24.0565 24.056966897613549 = true
  /\ PrimFloat.ltb 24.056966897613549 24.0575 = true.
Proof.
  split; [|split]; vm_compute; reflexivity.
Qed.

(** ** Thermal verifier *)

Lemma dict_get_coeff_dissip (ip_grade : string) :
  dict_get coeff_dissip ip_grade 0.8 == coefficient ip_grade.
Proof.
  unfold coefficient, coeff_dissip. cbn [dict_get].
  rewrite (String.eqb_sym "IP31"), (String.eqb_sym "IP43"), (String.eqb_sym "IP65").
  destruct (String.eqb ip_grade "IP31"); [reflexivity|].
  destruct (String.eqb ip_grade "IP43"); [reflexivity|].
  destruct (String.eqb ip_grade "IP65"); reflexivity.
Qed.

Lemma coefficient_pos (ip_grade : string) : 0 < coefficient ip_grade.
Proof.
  unfold coefficient.
  destruct (String.eqb ip_grade "IP31"); [reflexivity|].
  destruct (String.eqb ip_grade "IP43"); [reflexivity|].
  destruct (String.eqb ip_grade "IP65"); reflexivity.
Qed.

(** The verdict as a function of the margin. *)
Lemma esito_of_margine (m : Q) (e : string) :
  e = (if Qltb 20 m then "OK" else if Qltb 0 m then "CRITICO" else "NON OK") ->
  (e = "OK" <-> 20 < m)
  /\ (e = "CRITICO" <-> 0 < m /\ m <= 20)
  /\ (e = "NON OK" <-> m <= 0).
Proof.
  intros ->.
  destruct (Qltb 20 m) eqn:E20; [apply Qltb_true in E20 | apply Qltb_false in E20];
    [|destruct (Qltb 0 m) eqn:E0; [apply Qltb_true in E0 | apply Qltb_false in E0]].
  - split; [|split]; split; intro H; try discriminate; try reflexivity; lra.
  - split; [|split]; split; intro H; try discriminate; try reflexivity; lra.
  - split; [|split]; split; intro H; try discriminate; try reflexivity; lra.
Qed.

(** What the function returns once the dissipable power is not zero. *)
Lemma verifica_termica_ok (pot_diss volume_m3 : Q) (ip_grade : string) :
  ~ volume_m3 == 0 ->
  exists v,
    verifica_termica_semplificata pot_diss volume_m3 ip_grade = Return v
    /\ pot_dissipata v = pot_diss
    /\ pot_dissipabile v == volume_m3 * 400 * coefficient ip_grade
    /\ margine_pct v == (pot_dissipabile v - pot_diss) / pot_dissipabile v * 100
    /\ esito v = (if Qltb 20 (margine_pct v) then "OK"
                  else if Qltb 0 (margine_pct v) then "CRITICO" else "NON OK").
Proof.
  intro Hv. unfold verifica_termica_semplificata.
  assert (Hk : ~ volume_m3 * 400 * dict_get coeff_dissip ip_grade 0.8 == 0).
  { rewrite dict_get_coeff_dissip.
    pose proof (coefficient_pos ip_grade) as Hc.
    intro H. apply Hv.
    apply Qmult_integral in H. destruct H as [H|H]; [|lra].
    apply Qmult_integral in H. destruct H as [H|H]; [exact H|lra]. }
  rewrite truediv_ok by exact Hk. cbn [bind].
  eexists. split; [reflexivity|].
  cbn [pot_dissipata pot_dissipabile margine_pct esito].
  split; [reflexivity|]. split; [|split; reflexivity].
  rewrite dict_get_coeff_dissip. reflexivity.
Qed.



(** The two boundaries on the 0.8 m3 enclosure of the report tab. *)
Example thermal_margin_20_is_critico :
  exists v, verifica_termica_semplificata 256 0.8 "IP31" = Return v
            /\ margine_pct v == 20 /\ esito v = "CRITICO".
Proof.
  eexists. split; [reflexivity|]. split; reflexivity.
Qed.

Example thermal_margin_0_is_non_ok :
  exists v, verifica_termica_semplificata 320 0.8 "IP31" = Return v
            /\ margine_pct v == 0 /\ esito v = "NON OK".
Proof.
  eexists. split; [reflexivity|]. split; reflexivity.
Qed.

(** With the volume -1 the function validates nothing: it divides by the
    negative dissipable power and returns the verdict "OK".  With the
    volume 0 the division by zero does occur. *)
Lemma verify_thermal_negative_volume_accepted :
  (exists v, verifica_termica_semplificata 100 (-1) "IP31" = Return v
             /\ margine_pct v == 125 /\ esito v = "OK")
  /\ verifica_termica_semplificata 100 (-1) "IP31" <> Raise "InvalidVolume"
  /\ verifica_termica_semplificata 100 0 "IP31" = Raise ZeroDivisionError.
Proof.
  split; [|split].
  - eexists. split; [reflexivity|]. split; reflexivity.
  - vm_compute. discriminate.
  - reflexivity.
Qed.

(** C7, amended. With the volume 0 the function fails, by the
    [ZeroDivisionError] of the margin ratio itself.  With a negative volume
    it does not fail: the ratio is evaluated on the negative dissipable power
    and a result is returned. *)
Theorem verify_thermal_nonpositive_volume (pot_diss volume_m3 : Q) (ip_grade : string) :
  (volume_m3 == 0 ->
   verifica_termica_semplificata pot_diss volume_m3 ip_grade = Raise ZeroDivisionError)
  /\ (volume_m3 < 0 ->
      exists v,
        verifica_termica_semplificata pot_diss volume_m3 ip_grade = Return v
        /\ pot_dissipabile v < 0
        /\ margine_pct v == (pot_dissipabile v - pot_diss) / pot_dissipabile v * 100).
Proof.
  split.
  - intro Hz. unfold verifica_termica_semplificata.
    rewrite truediv_zero; [reflexivity|]. rewrite Hz. ring.
  - intro Hneg.
    destruct (verifica_termica_ok pot_diss volume_m3 ip_grade)
      as (v & E & _ & Hmax & Hm & _); [lra|].
    exists v. split; [exact E|]. split; [|exact Hm].
    rewrite Hmax. pose proof (coefficient_pos ip_grade) as Hc.
    setoid_replace (volume_m3 * 400 * coefficient ip_grade)
      with (- ((- volume_m3) * 400 * coefficient ip_grade)) by ring.
    assert (0 < (- volume_m3) * 400 * coefficient ip_grade).
    { apply Qmult_lt_0_compat; [|exact Hc]. lra. }
    lra.
Qed.

Lemma verify_thermal_nonpositive_volume_witness :
  verifica_termica_semplificata 155 0 "IP43" = Raise ZeroDivisionError
  /\ exists v,
       verifica_termica_semplificata 155 (-2) "IP43" = Return v
       /\ pot_dissipabile v < 0
       /\ margine_pct v == (pot_dissipabile v - 155) / pot_dissipabile v * 100.
Proof.
  split.
  - apply (proj1 (verify_thermal_nonpositive_volume 155 0 "IP43")). reflexivity.
  - apply (proj2 (verify_thermal_nonpositive_volume 155 (-2) "IP43")). reflexivity.
Defined.

(** ** Transformer lookup *)

Lemma min_scan_spec (rest : list Z) (x : Z) :
  let m := fold_left (fun m t => if (t <? m)%Z then t else m) rest x in
  In m (x :: rest) /\ forall t, In t (x :: rest) -> (m <= t)%Z.
Proof.
  revert x. induction rest as [|y rest IH]; intro x; simpl.
  - split; [left; reflexivity|]. intros t [<-|[]]. lia.
  - destruct (Z.ltb_spec y x) as [Hlt|Hge].
    + destruct (IH y) as [Hin Hmin]. split.
      * right. exact Hin.
      * intros t [<-|Ht]; [|exact (Hmin t Ht)].
        specialize (Hmin y (or_introl eq_refl)). lia.
    + destruct (IH x) as [Hin Hmin]. split.
      * destruct Hin as [<-|Hin]; [left; reflexivity|right; right; exact Hin].
      * intros t [<-|[<-|Ht]].
        -- apply Hmin. left. reflexivity.
        -- specialize (Hmin x (or_introl eq_refl)). lia.
        -- apply Hmin. right. exact Ht.
Qed.

Lemma min_list_spec (xs : list Z) :
  match min_list xs with
  | Return m => In m xs /\ forall t, In t xs -> (m <= t)%Z
  | Raise e => xs = [] /\ e = ValueError
  end.
Proof.
  destruct xs as [|x rest]; simpl.
  - split; reflexivity.
  - apply min_scan_spec.
Qed.

Lemma In_filter_std (pot_dim : Q) (t : Z) :
  In t (filter (fun t => Qle_bool pot_dim (inject_Z t)) trasf_std)
  <-> In t trasf_std /\ pot_dim <= inject_Z t.
Proof.
  rewrite filter_In, Qle_bool_iff. reflexivity.
Qed.

Lemma trasf_std_le_2500 (t : Z) : In t trasf_std -> (t <= 2500)%Z.
Proof.
  unfold trasf_std. simpl. intuition lia.
Qed.

Lemma trasf_scelto_spec (pot_dim : Q) :
  match trasf_scelto pot_dim with
  | Return t =>
      In t trasf_std /\ pot_dim <= inject_Z t
      /\ forall t', In t' trasf_std -> pot_dim <= inject_Z t' -> (t <= t')%Z
  | Raise e => e = ValueError /\ 2500 < pot_dim
  end.
Proof.
  unfold trasf_scelto.
  pose proof (min_list_spec (filter (fun t => Qle_bool pot_dim (inject_Z t)) trasf_std)) as H.
  destruct (min_list _) as [t|e].
  - destruct H as [Hin Hmin]. apply In_filter_std in Hin. destruct Hin as [Hin Hle].
    split; [exact Hin|]. split; [exact Hle|].
    intros t' Hin' Hle'. apply Hmin. apply In_filter_std. split; assumption.
  - destruct H as [Hnil ->]. split; [reflexivity|].
    apply Qnot_le_lt. intro Hle.
    assert (Hin : In 2500%Z (filter (fun t => Qle_bool pot_dim (inject_Z t)) trasf_std)).
    { apply In_filter_std. split; [|exact Hle]. unfold trasf_std. simpl. tauto. }
    rewrite Hnil in Hin. exact Hin.
Qed.

(** Above the largest size the lookup raises, and the exception is not a
    [NoStandardSizeFits] one. *)
Lemma transformer_lookup_3000_raises_other :
  trasf_scelto 3000 = Raise ValueError
  /\ trasf_scelto 3000 <> Raise "NoStandardSizeFits".
Proof.
  split; [reflexivity|]. vm_compute. discriminate.
Qed.

(** C6, amended. The lookup returns the smallest standard size that is at
    least the design power, so the chosen size does not decrease when the
    design power grows, and it fails if and only if the design power exceeds
    2500: the failure is the [ValueError] of [min] on the empty list. *)
Theorem transformer_lookup (pot_dim : Q) :
  (pot_dim <= 2500 ->
   exists t, trasf_scelto pot_dim = Return t
             /\ In t trasf_std /\ pot_dim <= inject_Z t
             /\ forall t', In t' trasf_std -> pot_dim <= inject_Z t' -> (t <= t')%Z)
  /\ (trasf_scelto pot_dim = Raise ValueError <-> 2500 < pot_dim)
  /\ (forall e, trasf_scelto pot_dim = Raise e -> e = ValueError)
  /\ (forall pot_dim' t t',
        pot_dim <= pot_dim' ->
        trasf_scelto pot_dim = Return t -> trasf_scelto pot_dim' = Return t' ->
        (t <= t')%Z).
Proof.
  pose proof (trasf_scelto_spec pot_dim) as H.
  split; [|split; [|split]].
  - intro Hle. destruct (trasf_scelto pot_dim) as [t|e].
    + exists t. split; [reflexivity|exact H].
    + destruct H as [_ H]. lra.
  - split.
    + intro E. rewrite E in H. apply H.
    + intro Hgt. destruct (trasf_scelto pot_dim) as [t|e].
      * destruct H as (Hin & Hle & _). apply trasf_std_le_2500 in Hin.
        assert (inject_Z t <= inject_Z 2500) by (rewrite <- Zle_Qle; exact Hin).
        change (inject_Z 2500) with 2500 in *. lra.
      * destruct H as [-> _]. reflexivity.
  - intros e E. rewrite E in H. apply H.
  - intros pot_dim' t t' Hle E E'.
    pose proof (trasf_scelto_spec pot_dim') as H'.
    rewrite E in H. rewrite E' in H'.
    destruct H as (_ & _ & Hmin). destruct H' as (Hin' & Hle' & _).
    apply Hmin; [exact Hin'|lra].
Qed.

Lemma transformer_lookup_witness :
  (exists t, trasf_scelto 136.62 = Return t
             /\ In t trasf_std /\ 136.62 <= inject_Z t
             /\ forall t', In t' trasf_std -> 136.62 <= inject_Z t' -> (t <= t')%Z)
  /\ trasf_scelto 2500.5 = Raise ValueError
  /\ (160 <= 250)%Z.
Proof.
  split; [|split].
  - apply (proj1 (transformer_lookup 136.62)). discriminate.
  - apply (proj1 (proj2 (transformer_lookup 2500.5))). reflexivity.
  - apply (proj2 (proj2 (proj2 (transformer_lookup 136.62))) 200 160%Z 250%Z).
    + discriminate.
    + reflexivity.
    + reflexivity.
Defined.

(** ** Enclosure choice *)

(** C10. The enclosure is chosen by the ordered guard chain on the number of
    loads plus one and on the general current: at most 6 and at most 400 A
    gives "ArTu M - 1 colonna" at 8000; otherwise at most 12 and at most
    800 A gives "ArTu K - 1 colonna" at 12000; otherwise "ArTu K - 2 colonne"
    at 18000. *)
Theorem enclosure_guard_chain (carichi : list Carico) (in_gen : Q) :
  let numero_partenze := (Z.of_nat (List.length carichi) + 1)%Z in
  ((numero_partenze <= 6)%Z /\ in_gen <= 400 ->
   carpenteria carichi in_gen = ("ArTu M - 1 colonna", 8000%Z))
  /\ (~ ((numero_partenze <= 6)%Z /\ in_gen <= 400) ->
      (numero_partenze <= 12)%Z /\ in_gen <= 800 ->
      carpenteria carichi in_gen = ("ArTu K - 1 colonna", 12000%Z))
  /\ (~ ((numero_partenze <= 6)%Z /\ in_gen <= 400) ->
      ~ ((numero_partenze <= 12)%Z /\ in_gen <= 800) ->
      carpenteria carichi in_gen = ("ArTu K - 2 colonne", 18000%Z)).
Proof.
  intro n. unfold carpenteria. fold n.
  assert (G : forall k q, (n <=? k)%Z && Qle_bool in_gen q = true
                          <-> (n <= k)%Z /\ in_gen <= q).
  { intros k q. rewrite andb_true_iff, Z.leb_le, Qle_bool_iff. reflexivity. }
  destruct ((n <=? 6)%Z && Qle_bool in_gen 400) eqn:E1;
    [|destruct ((n <=? 12)%Z && Qle_bool in_gen 800) eqn:E2].
  - apply G in E1. split; [reflexivity|]. split; intro H; contradiction.
  - apply G in E2. split; [|split].
    + intro H. apply G in H. congruence.
    + reflexivity.
    + intros _ H. contradiction.
  - split; [|split].
    + intro H. apply G in H. congruence.
    + intros _ H. apply G in H. congruence.
    + reflexivity.
Qed.

Lemma enclosure_guard_chain_witness :
  carpenteria template_officina 232 = ("ArTu M - 1 colonna", 8000%Z)
  /\ carpenteria template_officina 650 = ("ArTu K - 1 colonna", 12000%Z)
  /\ carpenteria template_officina 900 = ("ArTu K - 2 colonne", 18000%Z).
Proof.
  split; [|split].
  - apply (proj1 (enclosure_guard_chain template_officina 232)).
    split; [vm_compute|]; discriminate.
  - apply (proj1 (proj2 (enclosure_guard_chain template_officina 650))).
    + intros [_ H]. apply H. reflexivity.
    + split; [vm_compute|]; discriminate.
  - apply (proj2 (proj2 (enclosure_guard_chain template_officina 900))).
    + intros [_ H]. apply H. reflexivity.
    + intros [_ H]. apply H. reflexivity.
Defined.

(** The workshop template through the calculation tab: 132 kW installed,
    factor 0.9, 136.62 kW of design power, the 160 kVA transformer, about
    232 A of general current and the one-column ArTu M. *)
Example officina_pipeline :
  calcola_potenza_dimensionamento template_officina
  = Return (installed_power template_officina, 0.9,
            installed_power template_officina * 0.9 * 1.15)
  /\ installed_power template_officina * 0.9 * 1.15 == 136.62
  /\ trasf_scelto 136.62 = Return 160%Z
  /\ 231 < in_generale 136.62 /\ in_generale 136.62 < 233
  /\ carpenteria template_officina (in_generale 136.62) = ("ArTu M - 1 colonna", 8000%Z).
Proof.
  repeat split.
Qed.

(** ** Load insertion *)

Lemma any_eqb_lower (carichi : list Carico) (nome_ : string) :
  (exists c, In c carichi /\ stesso_nome (nome c) nome_) ->
  any (map (fun c => String.eqb (lower (nome c)) (lower nome_)) carichi) = true.
Proof.
  intros (c & Hin & Hs). unfold any. apply existsb_exists.
  exists (String.eqb (lower (nome c)) (lower nome_)). split.
  - apply in_map_iff. exists c. split; [reflexivity|exact Hin].
  - apply String.eqb_eq. exact Hs.
Qed.




(** ** Breaker selection *)

Section DataFrameLemmas.

Variable col : Riga -> Q.

(** The scan ends on the label of a row of least value. *)
Lemma idxmin_scan_spec (rest : Pd.DataFrame) (best : nat * Riga) :
  exists ir, In ir (best :: rest)
             /\ fst ir = Pd.idxmin_scan col best rest
             /\ forall ir', In ir' (best :: rest) -> col (snd ir) <= col (snd ir').
Proof.
  revert best. induction rest as [|x rest IH]; intro best; simpl.
  - exists best. split; [left; reflexivity|]. split; [reflexivity|].
    intros ir' [<-|[]]. lra.
  - destruct (Qltb (col (snd x)) (col (snd best))) eqn:E.
    + apply Qltb_true in E.
      destruct (IH x) as (ir & Hin & Hl & Hmin).
      exists ir. split; [right; exact Hin|]. split; [exact Hl|].
      intros ir' [<-|Hin']; [|exact (Hmin ir' Hin')].
      specialize (Hmin x (or_introl eq_refl)). lra.
    + apply Qltb_false in E.
      destruct (IH best) as (ir & Hin & Hl & Hmin).
      exists ir. split.
      { destruct Hin as [<-|Hin]; [left; reflexivity|right; right; exact Hin]. }
      split; [exact Hl|].
      intros ir' [<-|[<-|Hin']].
      * apply Hmin. left. reflexivity.
      * specialize (Hmin best (or_introl eq_refl)). lra.
      * apply Hmin. right. exact Hin'.
Qed.

End DataFrameLemmas.

(** Under unique labels, [loc] at the label of a row gives that row. *)
Lemma loc_of_label (df : Pd.DataFrame) (ir : nat * Riga) :
  NoDup (map fst df) -> In ir df -> Pd.loc df (fst ir) = Return (snd ir).
Proof.
  unfold Pd.loc. induction df as [|x df IH]; intros Hnd Hin; [contradiction|].
  simpl in Hnd. apply NoDup_cons_iff in Hnd. destruct Hnd as [Hx Hnd].
  simpl. destruct Hin as [->|Hin].
  - rewrite Nat.eqb_refl. reflexivity.
  - destruct (Nat.eqb (fst x) (fst ir)) eqn:E.
    + apply Nat.eqb_eq in E. exfalso. apply Hx. rewrite E.
      apply in_map. exact Hin.
    + apply IH; assumption.
Qed.

Lemma labels_select (mask : Riga -> bool) (df : Pd.DataFrame) :
  NoDup (map fst df) -> NoDup (map fst (Pd.select mask df)).
Proof.
  unfold Pd.select. induction df as [|x df IH]; intro Hnd; simpl; [constructor|].
  simpl in Hnd. apply NoDup_cons_iff in Hnd. destruct Hnd as [Hx Hnd].
  destruct (mask (snd x)); [|apply IH; exact Hnd].
  simpl. constructor; [|apply IH; exact Hnd].
  intro Hin. apply Hx. apply in_map_iff in Hin. destruct Hin as (y & Hy & Hin).
  apply filter_In in Hin. rewrite <- Hy. apply in_map. apply Hin.
Qed.

Lemma labels_combine_seq (records : list Riga) (start : nat) :
  map fst (combine (seq start (List.length records)) records)
  = seq start (List.length records).
Proof.
  revert start. induction records as [|r records IH]; intro start; simpl.
  - reflexivity.
  - rewrite IH. reflexivity.
Qed.

Lemma labels_from_records (records : list Riga) :
  NoDup (map fst (Pd.from_records records)).
Proof.
  unfold Pd.from_records. rewrite labels_combine_seq. apply seq_NoDup.
Qed.

Lemma rows_combine_seq (records : list Riga) (start : nat) (r : Riga) :
  In r records <-> exists i, In (i, r) (combine (seq start (List.length records)) records).
Proof.
  revert start. induction records as [|x records IH]; intro start; simpl.
  - split; [contradiction|]. intros [_ []].
  - split.
    + intros [->|Hin].
      * exists start. left. reflexivity.
      * apply (IH (S start)) in Hin. destruct Hin as [i Hi]. exists i. right. exact Hi.
    + intros [i [E|Hin]].
      * left. congruence.
      * right. apply (IH (S start)). exists i. exact Hin.
Qed.

Lemma rows_from_records (records : list Riga) (r : Riga) :
  In r records <-> exists i, In (i, r) (Pd.from_records records).
Proof.
  apply rows_combine_seq.
Qed.

Lemma mask_conforme (corrente_richiesta icc : Q) (r : Riga) :
  Qle_bool (corrente_richiesta * 1.25) (inject_Z (in_nom r))
  && Qle_bool icc (inject_Z (icu r)) = true
  <-> conforme corrente_richiesta icc r.
Proof.
  unfold conforme. rewrite andb_true_iff, !Qle_bool_iff. reflexivity.
Qed.

(** The three possible outcomes of the selection on a table built from
    records: a conforming row of least price, the error dict when no row
    conforms, and never an exception. *)
Lemma seleziona_interruttore_spec (corrente_richiesta icc : Q) (records : list Riga) :
  match seleziona_interruttore corrente_richiesta icc (Pd.from_records records) with
  | Return (to_dict r) =>
      In r records /\ conforme corrente_richiesta icc r
      /\ forall r', In r' records -> conforme corrente_richiesta icc r' ->
                    prezzo r <= prezzo r'
  | Return (errore msg) =>
      msg = "Nessun interruttore adeguato trovato"
      /\ forall r, In r records -> ~ conforme corrente_richiesta icc r
  | Raise _ => False
  end.
Proof.
  unfold seleziona_interruttore.
  set (mask := fun r => Qle_bool (corrente_richiesta * 1.25) (inject_Z (in_nom r))
                        && Qle_bool icc (inject_Z (icu r))).
  set (db := Pd.from_records records).
  assert (Hcand : forall ir, In ir (Pd.select mask db)
                             <-> In ir db /\ conforme corrente_richiesta icc (snd ir)).
  { intro ir. unfold Pd.select. rewrite filter_In.
    unfold mask. rewrite mask_conforme. reflexivity. }
  assert (Hnd : NoDup (map fst (Pd.select mask db)))
    by (apply labels_select, labels_from_records).
  destruct (Pd.select mask db) as [|best rest] eqn:Ec; simpl.
  - split; [reflexivity|]. intros r Hin Hconf.
    apply rows_from_records in Hin. destruct Hin as [i Hi].
    apply (Hcand (i, r)). split; [exact Hi|exact Hconf].
  - destruct (idxmin_scan_spec prezzo rest best) as (ir & Hin & Hl & Hmin).
    rewrite <- Hl, (loc_of_label (best :: rest) ir Hnd Hin). simpl.
    destruct (proj1 (Hcand ir) Hin) as [Hdb Hconf].
    split; [|split; [exact Hconf|]].
    + apply rows_from_records. exists (fst ir). rewrite <- surjective_pairing. exact Hdb.
    + intros r' Hin' Hconf'.
      apply rows_from_records in Hin'. destruct Hin' as [i Hi].
      apply (Hmin (i, r')). apply Hcand. split; [exact Hi|exact Hconf'].
Qed.



(** The main incomer of the workshop template: 232 A at 3.85 kA selects the
    T5H400 rated 320 A. *)
Example select_breaker_officina :
  seleziona_interruttore 232 3.85 load_interruttori_db
  = Return (to_dict (mkRiga "T5" "T5H400" 320 65 2200)).
Proof.
  reflexivity.
Qed.

(** ** Further properties of the fault-current estimator *)






(** ** Further properties of the sizing engine *)

Lemma carico_valido_sizing (l : list Carico) :
  Forall carico_valido l ->
  Forall (fun c => 0 < potenza_kw c /\ 0 < ore_giorno c <= 24
                   /\ (regime c = "continuo" \/ regime c = "intermittente")) l.
Proof.
  intro H. eapply Forall_impl; [|exact H].
  intros c (_ & Hp & _ & _ & _ & Hr & Ho1 & Ho2).
  split; [lra|]. split; [lra|exact Hr].
Qed.








(** ** Further properties of the thermal verifier *)

(** Comparing the margin with a percentage is comparing the powers. *)
Lemma margine_confronto (m M d k : Q) :
  0 < M -> m == (M - d) / M * 100 ->
  (k < m <-> d < (1 - k / 100) * M) /\ (m <= k <-> (1 - k / 100) * M <= d).
Proof.
  intros HM Hm.
  assert (E : m * M == (M - d) * 100) by (rewrite Hm; field; lra).
  assert (K : (1 - k / 100) * M == M - k * M * (1 # 100)) by field.
  split; split; intro H.
  - assert (k * M < m * M) by (apply Qmult_lt_r; assumption). rewrite K. lra.
  - rewrite K in H. apply (Qmult_lt_r _ _ M HM). lra.
  - assert (m * M <= k * M) by (apply Qmult_le_r; assumption). rewrite K. lra.
  - rewrite K in H. apply (Qmult_le_r _ _ M HM). lra.
Qed.

Lemma coefficient_range (ip_grade : string) :
  0.75 <= coefficient ip_grade /\ coefficient ip_grade <= 1.
Proof.
  unfold coefficient.
  destruct (String.eqb ip_grade "IP31"); [split; discriminate|].
  destruct (String.eqb ip_grade "IP43"); [split; discriminate|].
  destruct (String.eqb ip_grade "IP65"); split; discriminate.
Qed.

(** The verdict read on the two powers. *)
Lemma verdetto_potenze (pot_diss volume_m3 : Q) (ip_grade : string) :
  0 < volume_m3 ->
  exists v,
    verifica_termica_semplificata pot_diss volume_m3 ip_grade = Return v
    /\ 0 < pot_dissipabile v
    /\ pot_dissipabile v == volume_m3 * 400 * coefficient ip_grade
    /\ margine_pct v == (pot_dissipabile v - pot_diss) / pot_dissipabile v * 100
    /\ (esito v = "OK" <-> pot_diss < 0.8 * pot_dissipabile v)
    /\ (esito v = "CRITICO" <->
        0.8 * pot_dissipabile v <= pot_diss /\ pot_diss < pot_dissipabile v)
    /\ (esito v = "NON OK" <-> pot_dissipabile v <= pot_diss).
Proof.
  intro Hvol.
  destruct (verifica_termica_ok pot_diss volume_m3 ip_grade)
    as (v & E & _ & Hmax & Hm & He); [lra|].
  destruct (esito_of_margine _ _ He) as (Hok & Hcr & Hno).
  assert (HM : 0 < pot_dissipabile v).
  { rewrite Hmax. pose proof (coefficient_pos ip_grade).
    apply Qmult_lt_0_compat; [lra|assumption]. }
  destruct (margine_confronto _ _ _ 20 HM Hm) as [H20 H20'].
  destruct (margine_confronto _ _ _ 0 HM Hm) as [H0 H0'].
  assert (K20 : (1 - 20 / 100) * pot_dissipabile v == 0.8 * pot_dissipabile v) by field.
  assert (K0 : (1 - 0 / 100) * pot_dissipabile v == pot_dissipabile v) by field.
  rewrite K20 in H20, H20'. rewrite K0 in H0, H0'.
  exists v. split; [exact E|]. split; [exact HM|]. split; [exact Hmax|].
  split; [exact Hm|].
  split; [rewrite Hok; exact H20|].
  split; [rewrite Hcr, H0, H20'; tauto|].
  rewrite Hno. exact H0'.
Qed.



Lemma grado_esito_margine (m : Q) :
  grado_esito (if Qltb 20 m then "OK" else if Qltb 0 m then "CRITICO" else "NON OK")
  = if Qltb 20 m then 2%Z else if Qltb 0 m then 1%Z else 0%Z.
Proof.
  destruct (Qltb 20 m); [reflexivity|]. destruct (Qltb 0 m); reflexivity.
Qed.

Ltac qltb_props :=
  repeat match goal with
         | H : Qltb _ _ = true |- _ => apply Qltb_true in H
         | H : Qltb _ _ = false |- _ => apply Qltb_false in H
         end.

Lemma grado_monotone (m1 m2 : Q) :
  m2 <= m1 ->
  ((if Qltb 20 m2 then 2 else if Qltb 0 m2 then 1 else 0)
   <= (if Qltb 20 m1 then 2 else if Qltb 0 m1 then 1 else 0))%Z.
Proof.
  intro H.
  destruct (Qltb 20 m2) eqn:A2; destruct (Qltb 0 m2) eqn:B2;
    destruct (Qltb 20 m1) eqn:A1; destruct (Qltb 0 m1) eqn:B1;
    try lia; exfalso; qltb_props; lra.
Qed.

Lemma margine_per_max (m M d : Q) :
  0 < M -> m == (M - d) / M * 100 -> m * M == (M - d) * 100.
Proof.
  intros HM Hm. rewrite Hm. field. lra.
Qed.

(** X6. In the same enclosure more dissipated power never improves the
    result: the margin does not grow and the verdict does not get better. *)
Theorem thermal_monotone (d1 d2 volume_m3 : Q) (ip_grade : string) :
  0 < volume_m3 -> d1 <= d2 ->
  exists v1 v2,
    verifica_termica_semplificata d1 volume_m3 ip_grade = Return v1
    /\ verifica_termica_semplificata d2 volume_m3 ip_grade = Return v2
    /\ margine_pct v2 <= margine_pct v1
    /\ (grado_esito (esito v2) <= grado_esito (esito v1))%Z.
Proof.
  intros Hvol Hd.
  destruct (verifica_termica_ok d1 volume_m3 ip_grade)
    as (v1 & E1 & _ & Hmax1 & Hm1 & He1); [lra|].
  destruct (verifica_termica_ok d2 volume_m3 ip_grade)
    as (v2 & E2 & _ & Hmax2 & Hm2 & He2); [lra|].
  exists v1, v2. split; [exact E1|]. split; [exact E2|].
  assert (HM : 0 < pot_dissipabile v1).
  { rewrite Hmax1. pose proof (coefficient_pos ip_grade).
    apply Qmult_lt_0_compat; [lra|assumption]. }
  assert (HMeq : pot_dissipabile v2 == pot_dissipabile v1)
    by (rewrite Hmax1, Hmax2; reflexivity).
  rewrite HMeq in Hm2.
  pose proof (margine_per_max _ _ _ HM Hm1) as P1.
  pose proof (margine_per_max _ _ _ HM Hm2) as P2.
  assert (Hle : margine_pct v2 <= margine_pct v1).
  { apply (Qmult_le_r _ _ (pot_dissipabile v1) HM). lra. }
  split; [exact Hle|].
  rewrite He1, He2, !grado_esito_margine.
  apply grado_monotone. exact Hle.
Qed.

Lemma thermal_monotone_witness :
  exists v1 v2,
    verifica_termica_semplificata 155 0.8 "IP43" = Return v1
    /\ verifica_termica_semplificata 290 0.8 "IP43" = Return v2
    /\ margine_pct v2 <= margine_pct v1
    /\ (grado_esito (esito v2) <= grado_esito (esito v1))%Z.
Proof.
  apply (thermal_monotone 155 290 0.8 "IP43"); [reflexivity|discriminate].
Defined.

(** X7. The thermal check of the report tab never raises, whatever the
    list and the grade.  Up to 7 loads the verdict is "OK" for every grade,
    from 16 loads on it is "NON OK" for every grade. *)
Theorem report_thermal_by_count (carichi : list Carico) (ip_grade : string) :
  exists v,
    verifica_termica_report carichi ip_grade = Return v
    /\ pot_dissipata v = inject_Z (Z.of_nat (List.length carichi) * 15 + 80)
    /\ ((List.length carichi <= 7)%nat -> esito v = "OK")
    /\ ((16 <= List.length carichi)%nat -> esito v = "NON OK").
Proof.
  unfold verifica_termica_report.
  set (n := List.length carichi).
  set (d := inject_Z (Z.of_nat n * 15 + 80)).
  assert (Hvol : 0 < 2.0 * 1.0 * 0.4) by reflexivity.
  destruct (verdetto_potenze d (2.0 * 1.0 * 0.4) ip_grade Hvol)
    as (v & E & HM & Hmax & _ & Hok & _ & Hno).
  destruct (verifica_termica_ok d (2.0 * 1.0 * 0.4) ip_grade)
    as (v' & E' & Hd & _); [discriminate|].
  rewrite E in E'. injection E' as <-.
  exists v. split; [exact E|]. split; [exact Hd|].
  destruct (coefficient_range ip_grade) as [Hk1 Hk2].
  split; intro Hn.
  - apply Hok.
    assert (Hz : d <= inject_Z 185) by (unfold d; rewrite <- Zle_Qle; lia).
    change (inject_Z 185) with 185 in Hz. rewrite Hmax. lra.
  - apply Hno.
    assert (Hz : inject_Z 320 <= d) by (unfold d; rewrite <- Zle_Qle; lia).
    change (inject_Z 320) with 320 in Hz. rewrite Hmax. lra.
Qed.

Lemma report_thermal_by_count_witness :
  (exists v, verifica_termica_report template_officina "IP65" = Return v
             /\ esito v = "OK")
  /\ (exists v, verifica_termica_report
                  (template_officina ++ template_officina ++ template_officina
                   ++ template_officina)%list "IP31" = Return v
                /\ esito v = "NON OK").
Proof.
  split.
  - destruct (report_thermal_by_count template_officina "IP65") as (v & E & _ & H & _).
    exists v. split; [exact E|]. apply H. simpl. lia.
  - destruct (report_thermal_by_count
                (template_officina ++ template_officina ++ template_officina
                 ++ template_officina)%list "IP31") as (v & E & _ & _ & H).
    exists v. split; [exact E|]. apply H. simpl. lia.
Defined.

(** ** The budget tests and the sidebar *)

(** X8. With a non-negative budget, a cost under the 40% threshold of the
    breakers is also under the 60% threshold of the whole budget: the tab
    never reports the breakers as fine and the budget as in danger. *)
Theorem budget_flags_consistent (costo : Q) (budget_k : Z) :
  (0 <= budget_k)%Z ->
  fst (verifica_budget costo budget_k) = true ->
  snd (verifica_budget costo budget_k) = true.
Proof.
  unfold verifica_budget. simpl. intros Hb H.
  apply Qle_bool_iff in H. apply Qle_bool_iff.
  assert (Hq : inject_Z 0 <= inject_Z (budget_k * 1000))
    by (rewrite <- Zle_Qle; lia).
  change (inject_Z 0) with 0 in Hq. lra.
Qed.

Lemma budget_flags_consistent_witness :
  snd (verifica_budget 30000 100) = true.
Proof.
  apply (budget_flags_consistent 30000 100); [lia|reflexivity].
Defined.

Lemma dict_getitem_ip_auto (ambiente : string) :
  match dict_getitem ip_auto ambiente with
  | Return g => In (ambiente, g) ip_auto
  | Raise e => e = KeyError /\ ~ In ambiente ambienti
  end.
Proof.
  unfold ip_auto, ambienti. cbn [dict_getitem].
  destruct (String.eqb_spec "Interno normale" ambiente) as [<-|N1];
    [simpl; tauto|].
  destruct (String.eqb_spec "Interno umido" ambiente) as [<-|N2];
    [simpl; tauto|].
  destruct (String.eqb_spec "Esterno" ambiente) as [<-|N3];
    [simpl; tauto|].
  destruct (String.eqb_spec "Chimico aggressivo" ambiente) as [<-|N4];
    [simpl; tauto|].
  split; [reflexivity|]. simpl. tauto.
Qed.

(** X9. The grade preselected in the sidebar: for each environment of the
    select box the lookup and the [index] call succeed, and the position
    found is the position of the environment in its own list; any other
    environment name raises [KeyError]. *)
Theorem sidebar_default_grade (ambiente : string) :
  (In ambiente ambienti ->
   exists i, indice_ip_auto ambiente = Return i
             /\ nth_error ambienti i = Some ambiente
             /\ (i < List.length gradi_ip)%nat)
  /\ (~ In ambiente ambienti -> indice_ip_auto ambiente = Raise KeyError).
Proof.
  split.
  - intro Hin. simpl in Hin.
    destruct Hin as [<-|[<-|[<-|[<-|[]]]]].
    + exists 0%nat. repeat split. simpl. lia.
    + exists 1%nat. repeat split. simpl. lia.
    + exists 2%nat. repeat split. simpl. lia.
    + exists 3%nat. repeat split. simpl. lia.
  - intro Hnot. unfold indice_ip_auto.
    pose proof (dict_getitem_ip_auto ambiente) as H.
    destruct (dict_getitem ip_auto ambiente) as [g|e].
    + exfalso. apply Hnot. unfold ip_auto in H. simpl in H.
      unfold ambienti. simpl.
      destruct H as [H|[H|[H|[H|[]]]]]; injection H as <- _; tauto.
    + destruct H as [-> _]. reflexivity.
Qed.

Lemma sidebar_default_grade_witness :
  (exists i, indice_ip_auto "Esterno" = Return i
             /\ nth_error ambienti i = Some "Esterno"
             /\ (i < List.length gradi_ip)%nat)
  /\ indice_ip_auto "Sotterraneo" = Raise KeyError.
Proof.
  split.
  - apply (proj1 (sidebar_default_grade "Esterno")). simpl. tauto.
  - apply (proj2 (sidebar_default_grade "Sotterraneo")).
    simpl. intros [H|[H|[H|[H|[]]]]]; discriminate H.
Defined.

(** ** The load list of the session *)

Lemma any_eqb_lower_false (carichi : list Carico) (nome_ : string) :
  any (map (fun c => String.eqb (lower (nome c)) (lower nome_)) carichi) = false
  <-> forall c, In c carichi -> ~ stesso_nome (nome c) nome_.
Proof.
  split.
  - intros H c Hin Hs.
    rewrite (any_eqb_lower carichi nome_) in H; [discriminate|].
    exists c. split; assumption.
  - intro H. unfold any.
    destruct (existsb (fun b => b) (map _ carichi)) eqn:E; [|reflexivity].
    apply existsb_exists in E. destruct E as (b & Hb & ->).
    apply in_map_iff in Hb. destruct Hb as (c & Hc & Hin).
    apply String.eqb_eq in Hc. exfalso. exact (H c Hin Hc).
Qed.

(** The two ways the add handler ends. *)
Lemma aggiungi_carico_casi (carichi : list Carico)
    (nome_ : string) (potenza cos_phi_ : Q) (regime_ priorita_ : string) (ore_giorno_ : Q) :
  let r := aggiungi_carico carichi nome_ potenza cos_phi_ regime_ priorita_ ore_giorno_ in
  (rifiutato (snd r) /\ fst r = carichi
   /\ (strip nome_ = "" \/ potenza <= 0
       \/ exists c, In c carichi /\ stesso_nome (nome c) nome_))
  \/ (r = ((carichi ++ [mkCarico (strip nome_) potenza cos_phi_ regime_ priorita_
                                 ore_giorno_])%list,
           successo_aggiunto nome_)
      /\ strip nome_ <> "" /\ 0 < potenza
      /\ forall c, In c carichi -> ~ stesso_nome (nome c) nome_).
Proof.
  unfold aggiungi_carico.
  destruct (String.eqb_spec nome_ "") as [->|N1].
  { left. simpl. split; [exact I|]. split; [reflexivity|]. left. reflexivity. }
  destruct (String.eqb_spec (strip nome_) "") as [E2|N2].
  { left. simpl. split; [exact I|]. split; [reflexivity|]. left. exact E2. }
  cbn [orb].
  destruct (Qle_bool potenza 0) eqn:E3.
  { apply Qle_bool_iff in E3.
    left. simpl. split; [exact I|]. split; [reflexivity|]. right. left. exact E3. }
  destruct (any (map (fun c => String.eqb (lower (nome c)) (lower nome_)) carichi)) eqn:E4.
  - left. simpl. split; [exact I|]. split; [reflexivity|]. right. right.
    unfold any in E4. apply existsb_exists in E4. destruct E4 as (b & Hb & ->).
    apply in_map_iff in Hb. destruct Hb as (c & Hc & Hin).
    exists c. split; [exact Hin|]. apply String.eqb_eq. exact Hc.
  - right. split; [reflexivity|]. split; [exact N2|]. split.
    + apply Qnot_le_lt. intro H. apply Qle_bool_iff in H. congruence.
    + apply any_eqb_lower_false. exact E4.
Qed.



(** X11. The duplicate test compares the name as typed, the list stores it
    stripped: a name that matches an existing load only after stripping is
    accepted, and the list then holds two loads with the same name up to
    case. *)
Theorem padded_name_passes_duplicate_test (carichi : list Carico) (c : Carico)
    (nome_ : string) (potenza cos_phi_ : Q) (regime_ priorita_ : string) (ore_giorno_ : Q) :
  In c carichi ->
  stesso_nome (nome c) (strip nome_) ->
  (forall c', In c' carichi -> ~ stesso_nome (nome c') nome_) ->
  strip nome_ <> "" -> 0 < potenza ->
  let r := aggiungi_carico carichi nome_ potenza cos_phi_ regime_ priorita_ ore_giorno_ in
  snd r = successo_aggiunto nome_
  /\ fst r = (carichi ++ [mkCarico (strip nome_) potenza cos_phi_ regime_ priorita_
                                   ore_giorno_])%list
  /\ ~ NoDup (map (fun x => lower (nome x)) (fst r)).
Proof.
  intros Hin Hs Hd Hn Hp r.
  destruct (aggiungi_carico_casi carichi nome_ potenza cos_phi_ regime_ priorita_
                                 ore_giorno_)
    as [(_ & _ & Hc)|(E & _)]; [|fold r in E].
  - exfalso. destruct Hc as [Hc|[Hc|(c' & Hin' & Hs')]];
      [contradiction|lra|exact (Hd c' Hin' Hs')].
  - rewrite E. simpl. split; [reflexivity|]. split; [reflexivity|].
    rewrite map_app. simpl. intro Hnd.
    apply NoDup_remove_2 in Hnd. apply Hnd. rewrite app_nil_r.
    apply in_map_iff. exists c. split; [exact Hs|exact Hin].
Qed.

Lemma padded_name_passes_duplicate_test_witness :
  let r := aggiungi_carico template_officina " Tornio" 10 0.85 "continuo" "normale" 24 in
  snd r = successo_aggiunto " Tornio"
  /\ fst r = (template_officina
              ++ [mkCarico "Tornio" 10 0.85 "continuo" "normale" 24])%list
  /\ ~ NoDup (map (fun x => lower (nome x)) (fst r)).
Proof.
  apply (padded_name_passes_duplicate_test template_officina
           (mkCarico "Tornio" 15 0.8 "intermittente" "normale" 8)
           " Tornio" 10 0.85 "continuo" "normale" 24).
  - simpl. tauto.
  - reflexivity.
  - intros c Hin. simpl in Hin.
    repeat (destruct Hin as [<-|Hin]; [discriminate|]). contradiction.
  - discriminate.
  - reflexivity.
Defined.



Lemma pop_spec {A : Type} (l : list A) (i : nat) :
  match pop l i with
  | Return (x, l') => nth_error l i = Some x /\ l' = (firstn i l ++ skipn (S i) l)%list
  | Raise e => e = IndexError /\ (List.length l <= i)%nat
  end.
Proof.
  revert i. induction l as [|a l IH]; intro i.
  - simpl. split; [reflexivity|lia].
  - destruct i as [|j]; simpl.
    + split; reflexivity.
    + specialize (IH j). destruct (pop l j) as [[x l']|e]; simpl.
      * destruct IH as [Hn ->]. split; [exact Hn|reflexivity].
      * destruct IH as [-> Hlen]. split; [reflexivity|lia].
Qed.

Lemma pop_last {A : Type} (l : list A) (x : A) :
  pop (l ++ [x]) (List.length l) = Return (x, l).
Proof.
  induction l as [|a l IH]; simpl.
  - reflexivity.
  - rewrite IH. reflexivity.
Qed.

(** X13. The delete button at a position of the list removes exactly that
    load: the list gets one shorter, the loads before the position stay in
    place and the loads after it move up by one.  Past the end [pop] raises
    [IndexError]. *)
Theorem delete_removes_position (carichi : list Carico) (i : nat) :
  ((i < List.length carichi)%nat ->
   exists carichi',
     esegui carichi (Cancella i) = Return carichi'
     /\ S (List.length carichi') = List.length carichi
     /\ (forall j, (j < i)%nat -> nth_error carichi' j = nth_error carichi j)
     /\ (forall j, (i <= j)%nat -> nth_error carichi' j = nth_error carichi (S j)))
  /\ ((List.length carichi <= i)%nat ->
      esegui carichi (Cancella i) = Raise IndexError).
Proof.
  pose proof (pop_spec carichi i) as H. unfold esegui.
  split; intro Hi.
  - destruct (pop carichi i) as [[x l']|e]; [|destruct H as [_ H]; lia].
    destruct H as [Hn ->]. cbn [bind snd].
    exists (firstn i carichi ++ skipn (S i) carichi)%list.
    split; [reflexivity|].
    assert (Hfl : List.length (firstn i carichi) = i)
      by (rewrite length_firstn; lia).
    split; [|split].
    + rewrite length_app, Hfl, length_skipn. lia.
    + intros j Hj. rewrite nth_error_app1 by lia.
      rewrite nth_error_firstn.
      destruct (Nat.ltb_spec j i); [reflexivity|lia].
    + intros j Hj. rewrite nth_error_app2 by lia.
      rewrite Hfl, nth_error_skipn. f_equal. lia.
  - destruct (pop carichi i) as [[x l']|e].
    + destruct H as [Hn _].
      assert (nth_error carichi i <> None) by congruence.
      apply nth_error_Some in H. lia.
    + destruct H as [-> _]. reflexivity.
Qed.

Lemma delete_removes_position_witness :
  (exists carichi',
     esegui template_officina (Cancella 2) = Return carichi'
     /\ S (List.length carichi') = List.length template_officina
     /\ (forall j, (j < 2)%nat -> nth_error carichi' j = nth_error template_officina j)
     /\ (forall j, (2 <= j)%nat ->
                   nth_error carichi' j = nth_error template_officina (S j)))
  /\ esegui template_officina (Cancella 5) = Raise IndexError.
Proof.
  split.
  - apply (proj1 (delete_removes_position template_officina 2)). simpl. lia.
  - apply (proj2 (delete_removes_position template_officina 5)). simpl. lia.
Defined.

(** X14. Adding a load and then deleting the last position gives back the
    list as it was before the addition. *)
Theorem add_then_delete_restores (carichi : list Carico)
    (nome_ : string) (potenza cos_phi_ : Q) (regime_ priorita_ : string) (ore_giorno_ : Q) :
  let r := aggiungi_carico carichi nome_ potenza cos_phi_ regime_ priorita_ ore_giorno_ in
  snd r = successo_aggiunto nome_ ->
  esegui (fst r) (Cancella (List.length carichi)) = Return carichi.
Proof.
  intros r Hs.
  destruct (aggiungi_carico_casi carichi nome_ potenza cos_phi_ regime_ priorita_
                                 ore_giorno_)
    as [(Hr & _)|(E & _)]; fold r in Hr || fold r in E.
  - rewrite Hs in Hr. contradiction.
  - rewrite E. simpl. rewrite pop_last. reflexivity.
Qed.

Lemma add_then_delete_restores_witness :
  esegui (fst (aggiungi_carico template_caseificio "Pompa" 5 0.85 "continuo"
                               "normale" 24))
         (Cancella (List.length template_caseificio))
  = Return template_caseificio.
Proof.
  apply (add_then_delete_restores template_caseificio "Pompa" 5 0.85 "continuo"
                                  "normale" 24).
  reflexivity.
Defined.









(** ** Further properties of the breaker selection *)

Lemma conforme_weaken (c1 c2 i1 i2 : Q) (r : Riga) :
  c1 <= c2 -> i1 <= i2 -> conforme c2 i2 r -> conforme c1 i1 r.
Proof.
  unfold conforme. intros Hc Hi [H1 H2]. split; lra.
Qed.

(** X16. On any catalog, raising the required current or the fault current
    never makes the selected breaker cheaper, and a selection that fails
    keeps failing under the stronger requirement. *)
Theorem select_breaker_monotone (c1 c2 i1 i2 : Q) (records : list Riga) :
  c1 <= c2 -> i1 <= i2 ->
  (forall r2,
      seleziona_interruttore c2 i2 (Pd.from_records records) = Return (to_dict r2) ->
      exists r1,
        seleziona_interruttore c1 i1 (Pd.from_records records) = Return (to_dict r1)
        /\ prezzo r1 <= prezzo r2)
  /\ (forall msg,
        seleziona_interruttore c1 i1 (Pd.from_records records) = Return (errore msg) ->
        seleziona_interruttore c2 i2 (Pd.from_records records) = Return (errore msg)).
Proof.
  intros Hc Hi.
  pose proof (seleziona_interruttore_spec c1 i1 records) as H1.
  pose proof (seleziona_interruttore_spec c2 i2 records) as H2.
  split.
  - intros r2 E2. rewrite E2 in H2. destruct H2 as (Hin2 & Hconf2 & _).
    pose proof (conforme_weaken c1 c2 i1 i2 r2 Hc Hi Hconf2) as Hconf1.
    destruct (seleziona_interruttore c1 i1 (Pd.from_records records))
      as [[r1|msg]|e]; [|exfalso|contradiction].
    + exists r1. split; [reflexivity|].
      destruct H1 as (_ & _ & Hmin). exact (Hmin r2 Hin2 Hconf1).
    + destruct H1 as [_ Hnone]. exact (Hnone r2 Hin2 Hconf1).
  - intros msg E1. rewrite E1 in H1. destruct H1 as [-> Hnone].
    destruct (seleziona_interruttore c2 i2 (Pd.from_records records))
      as [[r2|msg]|e]; [exfalso| |contradiction].
    + destruct H2 as (Hin2 & Hconf2 & _).
      exact (Hnone r2 Hin2 (conforme_weaken c1 c2 i1 i2 r2 Hc Hi Hconf2)).
    + destruct H2 as [-> _]. reflexivity.
Qed.

Lemma select_breaker_monotone_witness :
  exists r1,
    seleziona_interruttore 40 20 load_interruttori_db = Return (to_dict r1)
    /\ prezzo r1 <= 2200.
Proof.
  apply (proj1 (select_breaker_monotone 40 232 20 40 interruttori_records
                  ltac:(discriminate) ltac:(discriminate))
               (mkRiga "T5" "T5H400" 320 65 2200)).
  reflexivity.
Defined.

(** The scan stops on the first row of least value: the rows before it are
    strictly larger, the rows after it at least as large. *)
Lemma idxmin_scan_first (col : Riga -> Q) (rest : Pd.DataFrame)
    (best : nat * Riga) (pre0 mid : Pd.DataFrame) :
  Forall (fun y => col (snd best) < col (snd y)) pre0 ->
  Forall (fun y => col (snd best) <= col (snd y)) mid ->
  exists pre ir post,
    (pre0 ++ best :: mid ++ rest)%list = (pre ++ ir :: post)%list
    /\ fst ir = Pd.idxmin_scan col best rest
    /\ Forall (fun y => col (snd ir) < col (snd y)) pre
    /\ Forall (fun y => col (snd ir) <= col (snd y)) post.
Proof.
  revert best pre0 mid. induction rest as [|x rest IH]; intros best pre0 mid Hpre Hmid.
  - exists pre0, best, mid. rewrite app_nil_r. simpl. repeat split; assumption.
  - simpl. destruct (Qltb (col (snd x)) (col (snd best))) eqn:E.
    + apply Qltb_true in E.
      destruct (IH x (pre0 ++ best :: mid)%list []) as (pre & ir & post & Heq & Hl & H1 & H2).
      * apply Forall_app. split.
        -- eapply Forall_impl; [|exact Hpre]. simpl. intros; lra.
        -- constructor; [exact E|].
           eapply Forall_impl; [|exact Hmid]. simpl. intros; lra.
      * constructor.
      * exists pre, ir, post. split; [|repeat split; assumption].
        rewrite <- Heq. simpl. rewrite <- app_assoc. reflexivity.
    + apply Qltb_false in E.
      destruct (IH best pre0 (mid ++ [x])%list) as (pre & ir & post & Heq & Hl & H1 & H2).
      * exact Hpre.
      * apply Forall_app. split; [exact Hmid|]. constructor; [exact E|constructor].
      * exists pre, ir, post. split; [|repeat split; assumption].
        rewrite <- Heq. rewrite <- app_assoc. reflexivity.
Qed.

Lemma filter_split {A : Type} (p : A -> bool) (l pre post : list A) (x : A) :
  filter p l = (pre ++ x :: post)%list ->
  exists l1 l2, l = (l1 ++ x :: l2)%list /\ filter p l1 = pre /\ filter p l2 = post.
Proof.
  revert pre. induction l as [|a l IH]; intros pre H; simpl in H.
  - destruct pre; discriminate H.
  - destruct (p a) eqn:Ea.
    + destruct pre as [|b pre]; simpl in H; injection H as <- H.
      * exists [], l. repeat split. exact H.
      * destruct (IH pre H) as (l1 & l2 & -> & H1 & H2).
        exists (a :: l1), l2. split; [reflexivity|]. split; [|exact H2].
        simpl. rewrite Ea, H1. reflexivity.
    + destruct (IH pre H) as (l1 & l2 & -> & H1 & H2).
      exists (a :: l1), l2. split; [reflexivity|]. split; [|exact H2].
      simpl. rewrite Ea. exact H1.
Qed.

Lemma rows_of_combine_seq (records : list Riga) (start : nat) :
  map snd (combine (seq start (List.length records)) records) = records.
Proof.
  revert start. induction records as [|r records IH]; intro start; simpl.
  - reflexivity.
  - rewrite IH. reflexivity.
Qed.

(** X17. Among the conforming rows of least price the selection returns
    the first one of the catalog: every conforming row listed before the
    chosen one is strictly dearer, every one listed after it is at least as
    dear. *)
Theorem select_breaker_first_cheapest (corrente_richiesta icc : Q)
    (records : list Riga) (r : Riga) :
  seleziona_interruttore corrente_richiesta icc (Pd.from_records records)
  = Return (to_dict r) ->
  exists prima dopo,
    records = (prima ++ r :: dopo)%list
    /\ Forall (fun r' => conforme corrente_richiesta icc r' -> prezzo r < prezzo r') prima
    /\ Forall (fun r' => conforme corrente_richiesta icc r' -> prezzo r <= prezzo r') dopo.
Proof.
  unfold seleziona_interruttore.
  set (mask := fun r => Qle_bool (corrente_richiesta * 1.25) (inject_Z (in_nom r))
                        && Qle_bool icc (inject_Z (icu r))).
  set (db := Pd.from_records records).
  assert (Hnd : NoDup (map fst (Pd.select mask db)))
    by (apply labels_select, labels_from_records).
  destruct (Pd.select mask db) as [|best rest] eqn:Ec; simpl; [discriminate|].
  intro E.
  destruct (idxmin_scan_first prezzo rest best [] [])
    as (pre & ir & post & Heq & Hl & Hpre & Hpost); [constructor|constructor|].
  simpl in Heq.
  assert (Hin : In ir (best :: rest))
    by (rewrite Heq; apply in_or_app; right; left; reflexivity).
  rewrite <- Hl, (loc_of_label (best :: rest) ir Hnd Hin) in E. simpl in E.
  injection E as <-.
  rewrite Heq in Ec. unfold Pd.select in Ec.
  destruct (filter_split _ _ _ _ _ Ec) as (l1 & l2 & Hdb & H1 & H2).
  exists (map snd l1), (map snd l2). split; [|split].
  - rewrite <- (rows_of_combine_seq records 0).
    fold (Pd.from_records records). fold db. rewrite Hdb.
    rewrite map_app. reflexivity.
  - apply Forall_forall. intros r' Hr' Hconf.
    apply in_map_iff in Hr'. destruct Hr' as (y & <- & Hy).
    apply (proj1 (Forall_forall _ _) Hpre). rewrite <- H1.
    apply filter_In. split; [exact Hy|]. apply mask_conforme. exact Hconf.
  - apply Forall_forall. intros r' Hr' Hconf.
    apply in_map_iff in Hr'. destruct Hr' as (y & <- & Hy).
    apply (proj1 (Forall_forall _ _) Hpost). rewrite <- H2.
    apply filter_In. split; [exact Hy|]. apply mask_conforme. exact Hconf.
Qed.

Lemma select_breaker_first_cheapest_witness :
  exists prima dopo,
    [mkRiga "A" "A100" 100 25 700; mkRiga "B" "B100" 100 25 680;
     mkRiga "C" "C125" 125 25 680]
    = (prima ++ mkRiga "B" "B100" 100 25 680 :: dopo)%list
    /\ Forall (fun r' => conforme 60 10 r' -> 680 < prezzo r') prima
    /\ Forall (fun r' => conforme 60 10 r' -> 680 <= prezzo r') dopo.
Proof.
  apply (select_breaker_first_cheapest 60 10
           [mkRiga "A" "A100" 100 25 700; mkRiga "B" "B100" 100 25 680;
            mkRiga "C" "C125" 125 25 680]
           (mkRiga "B" "B100" 100 25 680)).
  reflexivity.
Defined.

(** ** The built-in catalog and the component tab *)

Lemma interruttori_records_bounds (r : Riga) :
  In r interruttori_records -> (in_nom r <= 1600)%Z /\ (icu r <= 65)%Z.
Proof.
  unfold interruttori_records. simpl.
  intro H. repeat (destruct H as [<-|H]; [simpl; lia|]). contradiction.
Qed.

(** What the built-in catalog can serve. *)
Lemma copertura_catalogo (corrente_richiesta icc : Q) :
  match seleziona_interruttore corrente_richiesta icc load_interruttori_db with
  | Return (to_dict r) =>
      In r interruttori_records /\ corrente_richiesta * 1.25 <= 1600 /\ icc <= 65
  | Return (errore msg) =>
      msg = "Nessun interruttore adeguato trovato"
      /\ ~ (corrente_richiesta * 1.25 <= 1600 /\ icc <= 65)
  | Raise _ => False
  end.
Proof.
  pose proof (seleziona_interruttore_spec corrente_richiesta icc interruttori_records) as H.
  fold load_interruttori_db in H.
  destruct (seleziona_interruttore corrente_richiesta icc load_interruttori_db)
    as [[r|msg]|e]; [| |exact H].
  - destruct H as (Hin & [H1 H2] & _). split; [exact Hin|].
    destruct (interruttori_records_bounds r Hin) as [B1 B2].
    assert (inject_Z (in_nom r) <= inject_Z 1600) by (rewrite <- Zle_Qle; exact B1).
    assert (inject_Z (icu r) <= inject_Z 65) by (rewrite <- Zle_Qle; exact B2).
    change (inject_Z 1600) with 1600 in *. change (inject_Z 65) with 65 in *.
    split; lra.
  - destruct H as [-> Hnone]. split; [reflexivity|].
    intros [H1 H2].
    apply (Hnone (mkRiga "E3" "E3N3200" 1600 65 15000)).
    + unfold interruttori_records. simpl. tauto.
    + split; simpl; assumption.
Qed.

(** X18. On the built-in catalog a breaker is found exactly when 1.25
    times the required current is at most 1600 A and the fault current is at
    most 65 kA; otherwise the error dict is returned. *)
Theorem builtin_catalog_coverage (corrente_richiesta icc : Q) :
  (corrente_richiesta * 1.25 <= 1600 /\ icc <= 65 ->
   exists r, seleziona_interruttore corrente_richiesta icc load_interruttori_db
             = Return (to_dict r)
             /\ In r interruttori_records)
  /\ (~ (corrente_richiesta * 1.25 <= 1600 /\ icc <= 65) ->
      seleziona_interruttore corrente_richiesta icc load_interruttori_db
      = Return (errore "Nessun interruttore adeguato trovato")).
Proof.
  pose proof (copertura_catalogo corrente_richiesta icc) as H.
  destruct (seleziona_interruttore corrente_richiesta icc load_interruttori_db)
    as [[r|msg]|e]; [| |contradiction].
  - destruct H as (Hin & Hb). split.
    + intros _. exists r. split; [reflexivity|exact Hin].
    + intro Hn. contradiction.
  - destruct H as [-> Hn]. split.
    + intro Hb. contradiction.
    + intros _. reflexivity.
Qed.

Lemma builtin_catalog_coverage_witness :
  (exists r, seleziona_interruttore 1280 60 load_interruttori_db = Return (to_dict r)
             /\ In r interruttori_records)
  /\ seleziona_interruttore 1281 60 load_interruttori_db
     = Return (errore "Nessun interruttore adeguato trovato").
Proof.
  split.
  - apply (proj1 (builtin_catalog_coverage 1280 60)). split; discriminate.
  - apply (proj2 (builtin_catalog_coverage 1281 60)).
    intros [H _]. apply H. reflexivity.
Defined.

Lemma in_generale_scaled (pot_dim : Q) :
  in_generale pot_dim * 588.88 == pot_dim * 1000.
Proof.
  unfold in_generale. field.
Qed.

Lemma corrente_cc_400 (t : Z) :
  exists icc, calcola_corrente_cortocircuito (inject_Z t) 400 = Return icc
              /\ icc * 41.568 == inject_Z t.
Proof.
  unfold calcola_corrente_cortocircuito.
  rewrite truediv_ok by discriminate.
  eexists. split; [reflexivity|].
  change (inject_Z 400) with 400. field.
Qed.

(** X19. In the component tab, for every design power that a standard
    transformer covers, the fault current stays below the 65 kA of the
    catalog, and the main breaker is found exactly when the design power is
    at most 753.7664 kW: above it the tab shows the error of the selection
    although a transformer was chosen. *)
Theorem main_breaker_threshold (pot_dim : Q) :
  pot_dim <= 2500 ->
  exists t icc,
    trasf_scelto pot_dim = Return t
    /\ calcola_corrente_cortocircuito (inject_Z t) 400 = Return icc
    /\ 0 < icc /\ icc < 65
    /\ (pot_dim <= 753.7664 ->
        exists r, seleziona_interruttore (in_generale pot_dim) icc load_interruttori_db
                  = Return (to_dict r))
    /\ (753.7664 < pot_dim ->
        seleziona_interruttore (in_generale pot_dim) icc load_interruttori_db
        = Return (errore "Nessun interruttore adeguato trovato")).
Proof.
  intro Hle.
  pose proof (trasf_scelto_spec pot_dim) as Ht.
  destruct (trasf_scelto pot_dim) as [t|e]; [|destruct Ht as [_ Ht]; lra].
  destruct Ht as (Hin & _ & _).
  destruct (corrente_cc_400 t) as (icc & Ei & Hicc).
  exists t, icc. split; [reflexivity|]. split; [exact Ei|].
  assert (Ht1 : inject_Z 160 <= inject_Z t).
  { rewrite <- Zle_Qle. unfold trasf_std in Hin. simpl in Hin.
    repeat (destruct Hin as [<-|Hin]; [lia|]). contradiction. }
  assert (Ht2 : inject_Z t <= inject_Z 2500)
    by (rewrite <- Zle_Qle; apply trasf_std_le_2500; exact Hin).
  change (inject_Z 160) with 160 in Ht1. change (inject_Z 2500) with 2500 in Ht2.
  assert (Hi0 : 0 < icc) by lra. assert (Hi65 : icc < 65) by lra.
  split; [exact Hi0|]. split; [exact Hi65|].
  pose proof (in_generale_scaled pot_dim) as Hg.
  pose proof (copertura_catalogo (in_generale pot_dim) icc) as H.
  destruct (seleziona_interruttore (in_generale pot_dim) icc load_interruttori_db)
    as [[r|msg]|e]; [| |contradiction].
  - destruct H as (_ & Hb & _). split.
    + intros _. exists r. reflexivity.
    + intro Hgt. exfalso. lra.
  - destruct H as [-> Hn]. split.
    + intro Hp. exfalso. apply Hn. split; lra.
    + intros _. reflexivity.
Qed.

Lemma main_breaker_threshold_witness :
  (exists t icc,
     trasf_scelto 136.62 = Return t
     /\ calcola_corrente_cortocircuito (inject_Z t) 400 = Return icc
     /\ exists r, seleziona_interruttore (in_generale 136.62) icc load_interruttori_db
                  = Return (to_dict r))
  /\ (exists t icc,
        trasf_scelto 900 = Return t
        /\ calcola_corrente_cortocircuito (inject_Z t) 400 = Return icc
        /\ seleziona_interruttore (in_generale 900) icc load_interruttori_db
           = Return (errore "Nessun interruttore adeguato trovato")).
Proof.
  split.
  - destruct (main_breaker_threshold 136.62 ltac:(discriminate))
      as (t & icc & Et & Ei & _ & _ & H & _).
    exists t, icc. split; [exact Et|]. split; [exact Ei|].
    apply H. discriminate.
  - destruct (main_breaker_threshold 900 ltac:(discriminate))
      as (t & icc & Et & Ei & _ & _ & _ & H).
    exists t, icc. split; [exact Et|]. split; [exact Ei|].
    apply H. reflexivity.
Defined.






(** A load with power factor 0 stops the loop with [ZeroDivisionError]. *)
Example branch_zero_power_factor :
  ciclo_partenze 3.85 load_interruttori_db
                 [mkCarico "Resistenza" 10 0 "continuo" "normale" 24] [] 0
  = Raise ZeroDivisionError.
Proof.
  reflexivity.
Qed.


